(** * Used-car listings analysis: the cleaning pipeline and the reports

    A shallow embedding of [used-cars.py].  The script loads a CSV file into
    a pandas DataFrame, cleans it in five steps, computes five summary
    statistics and derives nine charts.  The DataFrame is modelled as a
    schema (column labels with their dtype) and a list of rows; every pandas
    call of the script is a function on that record, and the Python
    exceptions the calls can raise are values of [result].

    Modelling choices, all on the pandas side of the script:
    - a cell is missing ([NaN]), a string or a number; numbers are exact
      rationals: the rounding of float64 and its two infinities are not
      modelled, and a statement that depends on them says so in a
      hypothesis ([finite_numbers]); a boolean column behaves like a numeric
      column in every call used here;
    - strings are ASCII text: [str.strip] removes the ASCII white space of
      Python's [str.isspace], [str.lower] maps A-Z to a-z; on other text
      Python does more, and a statement that depends on the letters says so
      in a hypothesis ([ascii_text]);
    - the row labels (the index) are not modelled, rows are identified by
      their position;
    - the parser behind [pd.to_numeric] is a parameter of the development. *)

From Stdlib Require Import List String Ascii Bool Arith ZArith QArith Lia.
From Stdlib Require Import Permutation Sorted.
Import ListNotations.



Local Close Scope Q_scope.
Local Open Scope string_scope.
Local Open Scope list_scope.
Local Open Scope nat_scope.

(** ** Python exceptions and the error monad *)

Inductive exn : Type :=
| KeyError (labels : list string)
| AttributeError
| ValueError
| TypeError.

Inductive result (A : Type) : Type :=
| Ok (a : A)
| Raise (e : exn).

Arguments Ok {A} a.
Arguments Raise {A} e.

Definition bind {A B : Type} (c : result A) (k : A -> result B) : result B :=
  match c with
  | Ok a => k a
  | Raise e => Raise e
  end.

Notation "x <- c ;; k" := (bind c (fun x => k))
  (at level 61, c at next level, right associativity).

(** ** Cells, series and frames *)

Inductive value : Type :=
| NaN
| Str (s : string)
| Num (q : Q).

(** [numeric] stands for int64, float64 and bool; [object] is the dtype
    [read_csv] gives a column holding text. *)
Inductive dtype : Type := numeric | object.

Definition row : Type := list value.

Definition Series : Type := (dtype * list value)%type.

Record DataFrame : Type := mkDF {
  columns : list (string * dtype);
  rows : list row
}.

Definition len (data : DataFrame) : nat := List.length (rows data).

Definition isnull (v : value) : bool :=
  match v with
  | NaN => true
  | _ => false
  end.

Definition notnull (v : value) : bool := negb (isnull v).

(** Equality of two cells as [duplicated] and [value_counts] see it: missing
    values are equal to each other, numbers are compared by value. *)
Definition value_eqb (a b : value) : bool :=
  match a, b with
  | NaN, NaN => true
  | Str s, Str t => String.eqb s t
  | Num p, Num q => Qeq_bool p q
  | _, _ => false
  end.

Fixpoint row_eqb (r1 r2 : row) : bool :=
  match r1, r2 with
  | [], [] => true
  | a :: r1', b :: r2' => value_eqb a b && row_eqb r1' r2'
  | _, _ => false
  end.

(** Boolean indexing, [data[mask]]. *)
Fixpoint select {A : Type} (mask : list bool) (l : list A) : list A :=
  match mask, l with
  | b :: mask', x :: l' => if b then x :: select mask' l' else select mask' l'
  | _, _ => []
  end.

Fixpoint set_nth {A : Type} (j : nat) (v : A) (l : list A) : list A :=
  match l, j with
  | [], _ => []
  | _ :: l', O => v :: l'
  | x :: l', S j' => x :: set_nth j' v l'
  end.

(** [Index.get_loc]: the position of a label among the columns. *)
Fixpoint get_loc (name : string) (cols : list (string * dtype)) : option nat :=
  match cols with
  | [] => None
  | (c, _) :: cols' =>
      if String.eqb c name then Some O else option_map S (get_loc name cols')
  end.

(** [Index.get_indexer_for], on labels that are present. *)
Definition get_indexer (labels : list string) (cols : list (string * dtype)) : list nat :=
  flat_map (fun c => match get_loc c cols with
                     | Some j => [j]
                     | None => []
                     end) labels.

(** [name in data.columns] *)
Definition in_columns (name : string) (data : DataFrame) : bool :=
  match get_loc name (columns data) with
  | Some _ => true
  | None => false
  end.

Definition cell (j : nat) (r : row) : value := nth j r NaN.

Definition column_values (j : nat) (data : DataFrame) : list value :=
  map (cell j) (rows data).

(** [data[name]] *)
Definition getitem (data : DataFrame) (name : string) : result Series :=
  match get_loc name (columns data) with
  | Some j => Ok (snd (nth j (columns data) (name, object)), column_values j data)
  | None => Raise (KeyError [name])
  end.

(** [data[name] = s]: an existing column is replaced in place, a new one is
    appended on the right. *)
Definition setitem (data : DataFrame) (name : string) (s : Series) : DataFrame :=
  match get_loc name (columns data) with
  | Some j =>
      mkDF (set_nth j (name, fst s) (columns data))
           (map (fun rv => set_nth j (snd rv) (fst rv)) (combine (rows data) (snd s)))
  | None =>
      mkDF (columns data ++ [(name, fst s)])
           (map (fun rv => fst rv ++ [snd rv]) (combine (rows data) (snd s)))
  end.

(** ** White space and letter case *)

Definition is_space (c : ascii) : bool :=
  let n := nat_of_ascii c in
  ((9 <=? n) && (n <=? 13)) || ((28 <=? n) && (n <=? 32)).

Definition is_upper (c : ascii) : bool :=
  let n := nat_of_ascii c in (65 <=? n) && (n <=? 90).

Definition lower_char (c : ascii) : ascii :=
  if is_upper c then ascii_of_nat (nat_of_ascii c + 32) else c.

Fixpoint lstrip (s : string) : string :=
  match s with
  | EmptyString => EmptyString
  | String c s' => if is_space c then lstrip s' else s
  end.

Fixpoint rstrip (s : string) : string :=
  match s with
  | EmptyString => EmptyString
  | String c s' =>
      match rstrip s' with
      | EmptyString => if is_space c then EmptyString else String c EmptyString
      | t => String c t
      end
  end.

(** [str.strip()] and [str.lower()], on ASCII text. *)
Definition strip (s : string) : string := rstrip (lstrip s).

Fixpoint lower (s : string) : string :=
  match s with
  | EmptyString => EmptyString
  | String c s' => String (lower_char c) (lower s')
  end.

(** ** The cleaning steps *)

(** [DataFrame.duplicated(keep='first')]: a row is marked when an equal row
    was seen before it. *)
Fixpoint duplicated_from (seen : list row) (rs : list row) : list bool :=
  match rs with
  | [] => []
  | r :: rs' => existsb (row_eqb r) seen :: duplicated_from (seen ++ [r]) rs'
  end.

Definition duplicated (rs : list row) : list bool := duplicated_from [] rs.

Definition drop_duplicates (data : DataFrame) : DataFrame :=
  mkDF (columns data) (select (map negb (duplicated (rows data))) (rows data)).

Definition count_true (l : list bool) : nat := List.length (filter (fun b => b) l).

(** [data.isnull().sum()]: the number of missing cells of each column. *)
Definition isnull_sum (data : DataFrame) : list nat :=
  map (fun j => count_true (map isnull (column_values j data)))
      (seq 0 (List.length (columns data))).

(** [data.isnull().sum().sum()] *)
Definition isnull_sum_sum (data : DataFrame) : nat := list_sum (isnull_sum data).

(** [data.dropna()]: keep the rows all of whose cells are present. *)
Definition dropna (data : DataFrame) : DataFrame :=
  mkDF (columns data) (select (map (forallb notnull) (rows data)) (rows data)).

(** [data.dropna(subset=labels)]: a label that is not a column is a
    [KeyError] naming the absent labels. *)
Definition dropna_subset (labels : list string) (data : DataFrame) : result DataFrame :=
  match filter (fun c => negb (in_columns c data)) labels with
  | [] =>
      let locs := get_indexer labels (columns data) in
      Ok (mkDF (columns data)
               (select (map (fun r => forallb (fun j => notnull (cell j r)) locs) (rows data))
                       (rows data)))
  | absent => Raise (KeyError absent)
  end.

Definition numeric_columns : list string := ["price"; "mileage"; "year"].

Definition categorical_columns : list string :=
  ["model"; "fuel_type"; "transmission"; "color"; "city"].

(** The [.str] accessor is refused on a column that is not of object dtype. *)
Definition str_accessor (s : Series) : result (list value) :=
  match fst s with
  | object => Ok (snd s)
  | numeric => Raise AttributeError
  end.

(** An element-wise string method: a cell that is not a string gives NaN. *)
Definition str_method (f : string -> string) (s : Series) : result Series :=
  vals <- str_accessor s ;;
  Ok (object, map (fun v => match v with
                            | Str x => Str (f x)
                            | _ => NaN
                            end) vals).

Definition str_strip : Series -> result Series := str_method strip.
Definition str_lower : Series -> result Series := str_method lower.

(** [data[col] = data[col].str.strip().str.lower()], guarded by
    [col in data.columns]. *)
Definition normalize_column (data : DataFrame) (col : string) : result DataFrame :=
  if in_columns col data then
    s <- getitem data col ;;
    s1 <- str_strip s ;;
    s2 <- str_lower s1 ;;
    Ok (setitem data col s2)
  else Ok data.

Fixpoint normalize_columns (cols : list string) (data : DataFrame) : result DataFrame :=
  match cols with
  | [] => Ok data
  | col :: cols' =>
      data' <- normalize_column data col ;;
      normalize_columns cols' data'
  end.

(** The three counts the cleaning block writes to the page. *)
Record report : Type := mkReport {
  duplicates_removed : Z;
  missing_count : Z;
  invalid_rows_removed : Z
}.

Section Cleaning.

(** The parser of [pd.to_numeric]: the number a string denotes, if any. *)
Variable parse_number : string -> option Q.

(** [errors='coerce']: what does not parse becomes NaN.  A text that
    [pd.to_numeric] reads as an infinity is outside the finite numbers of
    the model, see [finite_numbers]. *)
Definition coerce (v : value) : value :=
  match v with
  | Str s =>
      match parse_number s with
      | Some q => Num q
      | None => NaN
      end
  | _ => v
  end.

Definition to_numeric (s : Series) : Series := (numeric, map coerce (snd s)).

(** [data[col] = pd.to_numeric(data[col], errors='coerce')], guarded by
    [col in data.columns]. *)
Definition coerce_column (data : DataFrame) (col : string) : DataFrame :=
  if in_columns col data then
    match getitem data col with
    | Ok s => setitem data col (to_numeric s)
    | Raise _ => data
    end
  else data.

Definition coerce_columns (cols : list string) (data : DataFrame) : DataFrame :=
  fold_left coerce_column cols data.

(** Lines 23-27. *)
Definition remove_duplicates (data : DataFrame) : DataFrame * Z :=
  let initial_count := len data in
  let data := drop_duplicates data in
  (data, Z.of_nat initial_count - Z.of_nat (len data))%Z.

(** Lines 29-32. *)
Definition handle_missing (data : DataFrame) : DataFrame * Z :=
  let missing := isnull_sum_sum data in
  (dropna data, Z.of_nat missing).

(** Lines 40-44. *)
Definition remove_invalid (data : DataFrame) : result (DataFrame * Z) :=
  let before_invalid_removal := len data in
  data' <- dropna_subset numeric_columns data ;;
  Ok (data', (Z.of_nat before_invalid_removal - Z.of_nat (len data'))%Z).

(** Lines 20-52: the cleaning block. *)
Definition clean_pipeline (data : DataFrame) : result (DataFrame * report) :=
  let (data1, dups) := remove_duplicates data in
  let (data2, missing) := handle_missing data1 in
  let data3 := coerce_columns numeric_columns data2 in
  r4 <- remove_invalid data3 ;;
  data5 <- normalize_columns categorical_columns (fst r4) ;;
  Ok (data5, mkReport dups missing (snd r4)).

End Cleaning.

(** ** Reductions of a series *)

(** The numbers of a column, missing cells skipped.  Arithmetic on a column
    that still holds text is a [TypeError]; the script applies the
    reductions below to [price], [mileage] and [year] after [to_numeric],
    where no text is left. *)
Fixpoint numbers_of (vals : list value) : result (list Q) :=
  match vals with
  | [] => Ok []
  | NaN :: vals' => numbers_of vals'
  | Num q :: vals' => qs <- numbers_of vals' ;; Ok (q :: qs)
  | Str _ :: _ => Raise TypeError
  end.

Definition Qsum (qs : list Q) : Q := fold_right Qplus 0%Q qs.

(** [Series.mean()]: NaN for a series without numbers. *)
Definition series_mean (s : Series) : result value :=
  qs <- numbers_of (snd s) ;;
  match qs with
  | [] => Ok NaN
  | _ => Ok (Num (Qsum qs / inject_Z (Z.of_nat (List.length qs))))
  end.

Definition Qmin (p q : Q) : Q := if Qle_bool p q then p else q.
Definition Qmax (p q : Q) : Q := if Qle_bool p q then q else p.

(** [Series.min()] and [Series.max()]: NaN for a series without numbers. *)
Definition series_min (s : Series) : result value :=
  qs <- numbers_of (snd s) ;;
  match qs with
  | [] => Ok NaN
  | q :: qs' => Ok (Num (fold_left Qmin qs' q))
  end.

Definition series_max (s : Series) : result value :=
  qs <- numbers_of (snd s) ;;
  match qs with
  | [] => Ok NaN
  | q :: qs' => Ok (Num (fold_left Qmax qs' q))
  end.

(** [int(x)]: truncation towards zero; [int(nan)] is a [ValueError].  The
    [OverflowError] of [int(inf)] has no place here: the numbers of the
    model are finite. *)
Definition py_int (v : value) : result Z :=
  match v with
  | Num q => Ok (Z.quot (Qnum q) (Zpos (Qden q)))
  | NaN => Raise ValueError
  | Str _ => Raise TypeError
  end.

(** [x / d] for a scalar that may be NaN. *)
Definition div_scalar (v : value) (d : Q) : result value :=
  match v with
  | Num q => Ok (Num (q / d))
  | NaN => Ok NaN
  | Str _ => Raise TypeError
  end.

Fixpoint mapM {A B : Type} (f : A -> result B) (l : list A) : result (list B) :=
  match l with
  | [] => Ok []
  | x :: l' => y <- f x ;; ys <- mapM f l' ;; Ok (y :: ys)
  end.

(** [s / d], element-wise. *)
Definition div_series (s : Series) (d : Q) : result Series :=
  vals <- mapM (fun v => div_scalar v d) (snd s) ;;
  Ok (numeric, vals).

Definition lakh : Q := 100000 # 1.

(** ** Statistics (lines 62-71) *)

(** The two means are kept as numbers: their rendering with two decimals is
    not modelled. *)
Record stats : Type := mkStats {
  total_cars : nat;
  average_price_lakhs : value;
  average_mileage : value;
  oldest_year : Z;
  newest_year : Z
}.

Definition statistics (data : DataFrame) : result stats :=
  let total := len data in
  price <- getitem data "price" ;;
  mean_price <- series_mean price ;;
  avg_price <- div_scalar mean_price lakh ;;
  mileage <- getitem data "mileage" ;;
  avg_mileage <- series_mean mileage ;;
  year <- getitem data "year" ;;
  year_min <- series_min year ;;
  oldest <- py_int year_min ;;
  year' <- getitem data "year" ;;
  year_max <- series_max year' ;;
  newest <- py_int year_max ;;
  Ok (mkStats total avg_price avg_mileage oldest newest).

(** ** Counting and sorting *)

(** The distinct values of a list, in the order of their first occurrence. *)
Fixpoint unique (vals : list value) : list value :=
  match vals with
  | [] => []
  | v :: vals' => v :: filter (fun w => negb (value_eqb v w)) (unique vals')
  end.

Definition count_value (v : value) (vals : list value) : nat :=
  List.length (filter (value_eqb v) vals).

Fixpoint insert_by {A : Type} (le : A -> A -> bool) (x : A) (l : list A) : list A :=
  match l with
  | [] => [x]
  | y :: l' => if le x y then x :: l else y :: insert_by le x l'
  end.

(** A stable insertion sort; on keys that are pairwise different every
    sorting algorithm gives this result. *)
Fixpoint sort_by {A : Type} (le : A -> A -> bool) (l : list A) : list A :=
  match l with
  | [] => []
  | x :: l' => insert_by le x (sort_by le l')
  end.

(** [Series.value_counts()]: the distinct present values with their number
    of occurrences, the most frequent first. *)
Definition value_counts (s : Series) : list (value * nat) :=
  let present := filter notnull (snd s) in
  sort_by (fun a b => snd b <=? snd a)
          (map (fun v => (v, count_value v present)) (unique present)).

(** The order of the values of one column; missing values come last. *)
Definition value_leb (a b : value) : bool :=
  match a, b with
  | _, NaN => true
  | NaN, _ => false
  | Num p, Num q => Qle_bool p q
  | Str s, Str t => String.leb s t
  | _, _ => false
  end.

Definition is_num (v : value) : bool :=
  match v with Num _ => true | _ => false end.

Definition is_str (v : value) : bool :=
  match v with Str _ => true | _ => false end.

(** Numbers and text cannot be ordered against each other. *)
Definition comparable (vals : list value) : bool :=
  let present := filter notnull vals in
  forallb is_num present || forallb is_str present.

(** Sorting rows by a key column, ascending. *)
Definition sort_by_key {B : Type} (l : list (value * B)) : result (list (value * B)) :=
  if comparable (map fst l)
  then Ok (sort_by (fun a b => value_leb (fst a) (fst b)) l)
  else Raise TypeError.

(** [data.groupby(key)[col].mean()]: one group per present key, the keys in
    ascending order. *)
Definition groupby_mean (keys vals : Series) : result (list (value * value)) :=
  let pairs := combine (snd keys) (snd vals) in
  ks <- sort_by_key (map (fun k => (k, tt)) (unique (filter notnull (snd keys)))) ;;
  mapM (fun k =>
          m <- series_mean (fst vals,
                            map snd (filter (fun kv => value_eqb (fst k) (fst kv)) pairs)) ;;
          Ok (fst k, m)) ks.

(** ** The chart blocks (lines 73-163) *)

Inductive chart : Type :=
| Bar (points : list (value * nat))
| Pie (points : list (value * nat))
| Histogram (xs : list value)
| Scatter (points : list (value * value))
| LineCounts (points : list (value * nat))
| LineValues (points : list (value * value)).

(** A block takes the table and gives it back, with the chart it drew if
    its columns are there. *)
Definition block : Type := DataFrame -> result (DataFrame * option chart).

(** [data[col].value_counts().reset_index()] followed by [head(n)]. *)
Definition top_counts (col : string) (n : nat) (data : DataFrame) : result (list (value * nat)) :=
  s <- getitem data col ;;
  Ok (firstn n (value_counts s)).

Definition model_block : block := fun data =>
  if in_columns "model" data then
    pts <- top_counts "model" 15 data ;;
    Ok (data, Some (Bar pts))
  else Ok (data, None).

Definition fuel_block : block := fun data =>
  if in_columns "fuel_type" data then
    s <- getitem data "fuel_type" ;;
    Ok (data, Some (Pie (value_counts s)))
  else Ok (data, None).

Definition transmission_block : block := fun data =>
  if in_columns "transmission" data then
    s <- getitem data "transmission" ;;
    Ok (data, Some (Pie (value_counts s)))
  else Ok (data, None).

Definition price_block : block := fun data =>
  if in_columns "price" data then
    price <- getitem data "price" ;;
    lakhs <- div_series price lakh ;;
    let data := setitem data "price_in_lakhs" lakhs in
    x <- getitem data "price_in_lakhs" ;;
    Ok (data, Some (Histogram (snd x)))
  else Ok (data, None).

(** [(s <= 300) & (s >= 1)]: a comparison with NaN is false. *)
Definition in_range (v : value) : result bool :=
  match v with
  | Num q => Ok (Qle_bool q (300 # 1) && Qle_bool (1 # 1) q)
  | NaN => Ok false
  | Str _ => Raise TypeError
  end.

Definition mileage_block : block := fun data =>
  if in_columns "mileage" data && in_columns "price" data then
    price <- getitem data "price" ;;
    lakhs <- div_series price lakh ;;
    let data := setitem data "price_in_lakhs" lakhs in
    x <- getitem data "price_in_lakhs" ;;
    mask <- mapM in_range (snd x) ;;
    let filtered_data := mkDF (columns data) (select mask (rows data)) in
    xs <- getitem filtered_data "mileage" ;;
    ys <- getitem filtered_data "price_in_lakhs" ;;
    Ok (data, Some (Scatter (combine (snd xs) (snd ys))))
  else Ok (data, None).

Definition year_block : block := fun data =>
  if in_columns "year" data then
    s <- getitem data "year" ;;
    let year_counts := value_counts s in
    pts <- sort_by_key year_counts ;;
    Ok (data, Some (LineCounts pts))
  else Ok (data, None).

Definition color_block : block := fun data =>
  if in_columns "color" data then
    pts <- top_counts "color" 15 data ;;
    Ok (data, Some (Bar pts))
  else Ok (data, None).

Definition avg_price_block : block := fun data =>
  if in_columns "year" data && in_columns "price" data then
    year <- getitem data "year" ;;
    price <- getitem data "price" ;;
    avg_price_year <- groupby_mean year price ;;
    pts <- mapM (fun kv => y <- div_scalar (snd kv) lakh ;; Ok (fst kv, y)) avg_price_year ;;
    Ok (data, Some (LineValues pts))
  else Ok (data, None).

Definition city_block : block := fun data =>
  if in_columns "city" data then
    pts <- top_counts "city" 10 data ;;
    Ok (data, Some (Bar pts))
  else Ok (data, None).

Definition blocks : list block :=
  [model_block; fuel_block; transmission_block; price_block; mileage_block;
   year_block; color_block; avg_price_block; city_block].

(** The reporting stage: the blocks in the order of the script, each on the
    table the previous one left. *)
Fixpoint run_blocks (bs : list block) (data : DataFrame) : result (DataFrame * list (option chart)) :=
  match bs with
  | [] => Ok (data, [])
  | b :: bs' =>
      r <- b data ;;
      rest <- run_blocks bs' (fst r) ;;
      Ok (fst rest, snd r :: snd rest)
  end.

Definition reporting (data : DataFrame) : result (DataFrame * list (option chart)) :=
  run_blocks blocks data.

(** The whole run: cleaning, statistics, then the charts. *)
Definition program (parse_number : string -> option Q) (input : DataFrame)
  : result (DataFrame * report * stats * list (option chart)) :=
  cleaned <- clean_pipeline parse_number input ;;
  st <- statistics (fst cleaned) ;;
  shown <- reporting (fst cleaned) ;;
  Ok (fst shown, snd cleaned, st, snd shown).

(** ** Well-formed frames and sample data *)

(** What [read_csv] produces: labels are pairwise different, every row has
    one cell per column, and a cell agrees with the dtype of its column. *)
Definition fits (dt : dtype) (v : value) : bool :=
  match dt, v with
  | _, NaN => true
  | numeric, Num _ => true
  | object, Str _ => true
  | _, _ => false
  end.

Fixpoint row_fits (cols : list (string * dtype)) (r : row) : bool :=
  match cols, r with
  | [], [] => true
  | (_, dt) :: cols', v :: r' => fits dt v && row_fits cols' r'
  | _, _ => false
  end.

Definition well_formed (data : DataFrame) : Prop :=
  NoDup (map fst (columns data)) /\
  Forall (fun r => row_fits (columns data) r = true) (rows data).

(** A sub-sequence: some elements removed, the others in their order. *)
Inductive Subseq {A : Type} : list A -> list A -> Prop :=
| Subseq_nil : Subseq [] []
| Subseq_skip x l1 l2 : Subseq l1 l2 -> Subseq l1 (x :: l2)
| Subseq_keep x l1 l2 : Subseq l1 l2 -> Subseq (x :: l1) (x :: l2).

(** The words of the specification for the first step: a row goes exactly
    when an earlier row of the table equals it. *)
Inductive FirstOccurrences : list row -> list row -> list row -> Prop :=
| FO_nil earlier : FirstOccurrences earlier [] []
| FO_drop earlier r rs out :
    (exists e, In e earlier /\ row_eqb r e = true) ->
    FirstOccurrences (earlier ++ [r]) rs out ->
    FirstOccurrences earlier (r :: rs) out
| FO_keep earlier r rs out :
    (forall e, In e earlier -> row_eqb r e = false) ->
    FirstOccurrences (earlier ++ [r]) rs out ->
    FirstOccurrences earlier (r :: rs) (r :: out).

(** The number of missing cells of a table, counted cell by cell. *)
Definition missing_cells (rs : list row) : nat :=
  list_sum (map (fun r => count_true (map isnull r)) rs).

Definition indicator (b : bool) : nat := if b then 1 else 0.

(** A cell-wise function applied to the cells of a row at given positions. *)
Definition upd (j : nat) (f : value -> value) (r : row) : row :=
  set_nth j (f (cell j r)) r.

Definition upd_all (f : value -> value) (locs : list nat) (r : row) : row :=
  fold_left (fun r' j => upd j f r') locs r.

(** What [.str.strip().str.lower()] does to one cell. *)
Definition norm_cell (v : value) : value :=
  match v with
  | Str x => Str (lower (strip x))
  | _ => NaN
  end.

Definition dtype_at (j : nat) (cols : list (string * dtype)) : dtype :=
  snd (nth j cols ("", object)).

Definition is_object (dt : dtype) : bool :=
  match dt with object => true | numeric => false end.

(** Every label that is a column names a column of object dtype. *)
Definition all_object (labels : list string) (cols : list (string * dtype)) : bool :=
  forallb (fun c => match get_loc c cols with
                    | Some j => is_object (dtype_at j cols)
                    | None => true
                    end) labels.

(** A cell that does not hold a number after coercion: it is missing or
    its text does not parse. *)
Definition invalid_number (parse_number : string -> option Q) (v : value) : bool :=
  match v with
  | NaN => true
  | Str s => match parse_number s with
             | Some _ => false
             | None => true
             end
  | Num _ => false
  end.

(** A row with such a cell in one of the columns at [locs]. *)
Definition invalid_row (parse_number : string -> option Q) (locs : list nat) (r : row) : bool :=
  existsb (fun j => invalid_number parse_number (cell j r)) locs.

(** A table whose second row has a year that is not a number. *)
Definition bad_year_input : DataFrame :=
  mkDF [("price", numeric); ("mileage", numeric); ("year", object); ("model", object)]
       [[Num (inject_Z 900000); Num (inject_Z 12); Str "2015"; Str "civic"];
        [Num (inject_Z 650000); Num (inject_Z 15); Str "abc"; Str "mehran"]].

(** What coercion and normalisation together do to one row of a table with
    the columns [cols]. *)
Definition clean_row (parse_number : string -> option Q)
           (cols : list (string * dtype)) (r : row) : row :=
  upd_all norm_cell (get_indexer categorical_columns cols)
          (upd_all (coerce parse_number) (get_indexer numeric_columns cols) r).

(** Rows that are pairwise different. *)
Inductive Distinct : list row -> Prop :=
| Distinct_nil : Distinct []
| Distinct_cons r rs :
    (forall e, In e rs -> row_eqb r e = false) -> Distinct rs -> Distinct (r :: rs).

Definition leading_space (s : string) : bool :=
  match s with
  | EmptyString => false
  | String c _ => is_space c
  end.

Fixpoint trailing_space (s : string) : bool :=
  match s with
  | EmptyString => false
  | String c EmptyString => is_space c
  | String _ s' => trailing_space s'
  end.

Fixpoint has_upper (s : string) : bool :=
  match s with
  | EmptyString => false
  | String c s' => is_upper c || has_upper s'
  end.

(** Text without white space at either end and without capital letters. *)
Definition trimmed_lower (v : value) : Prop :=
  exists s, v = Str s /\
            leading_space s = false /\ trailing_space s = false /\ has_upper s = false.

(** The invariant of the table the cleaning block leaves: the numeric
    columns are there, of numeric dtype and hold numbers; the categorical
    columns that are there are of object dtype and hold trimmed lower-case
    text; no cell is missing. *)
Definition is_clean (data : DataFrame) : Prop :=
  (forall c, In c numeric_columns ->
     exists j, get_loc c (columns data) = Some j /\
               dtype_at j (columns data) = numeric) /\
  (forall c j, In c categorical_columns ->
     get_loc c (columns data) = Some j -> dtype_at j (columns data) = object) /\
  Forall (fun r =>
            List.length r = List.length (columns data) /\
            ~ In NaN r /\
            (forall j, In j (get_indexer numeric_columns (columns data)) ->
               exists q, cell j r = Num q) /\
            (forall j, In j (get_indexer categorical_columns (columns data)) ->
               trimmed_lower (cell j r)))
         (rows data).

(** A table whose only row has a year that is not a number. *)
Definition unparseable_input : DataFrame :=
  mkDF [("price", numeric); ("mileage", numeric); ("year", object); ("model", object)]
       [[Num (inject_Z 650000); Num (inject_Z 15); Str "abc"; Str "mehran"]].



(** Every row has one cell per column. *)
Definition rectangular (data : DataFrame) : Prop :=
  Forall (fun r => List.length r = List.length (columns data)) (rows data).

(** The column is there and holds numbers only. *)
Definition numbers_column (c : string) (data : DataFrame) : Prop :=
  exists dt vals, getitem data c = Ok (dt, vals) /\ forallb is_num vals = true.

(** What the chart blocks rely on. *)
Definition chartable (data : DataFrame) : Prop :=
  rectangular data /\ numbers_column "price" data /\ numbers_column "year" data.

(** [after] has the rows of [before] in their order and the same contents
    in every column other than [price_in_lakhs]. *)
Definition same_but_lakhs (before after : DataFrame) : Prop :=
  len after = len before /\
  forall c, c <> "price_in_lakhs" -> getitem after c = getitem before c.

(** Ascending order of years. *)
Definition year_lt (a b : value) : Prop :=
  match a, b with
  | Num p, Num q => (p < q)%Q
  | _, _ => False
  end.

(** A table without a [price] column. *)
Definition no_price_input : DataFrame :=
  mkDF [("mileage", numeric); ("year", numeric); ("model", object)]
       [[Num (inject_Z 12); Num (inject_Z 2015); Str "Civic"]].

(** A parser for the examples: unsigned decimal integers. *)
Fixpoint parse_digits (acc : option Z) (s : string) : option Z :=
  match s with
  | EmptyString => acc
  | String c s' =>
      let n := nat_of_ascii c in
      if (48 <=? n) && (n <=? 57)
      then parse_digits (Some (10 * match acc with Some a => a | None => 0 end
                               + Z.of_nat (n - 48))%Z) s'
      else None
  end.

Definition parse_decimal (s : string) : option Q :=
  option_map inject_Z (parse_digits None s).

Definition listing_columns : list (string * dtype) :=
  [("price", numeric); ("mileage", numeric); ("year", numeric); ("model", object)].

Definition listing (price mileage year : Z) (model : string) : row :=
  [Num (inject_Z price); Num (inject_Z mileage); Num (inject_Z year); Str model].

(** Two listings that differ only in the spelling of the model. *)
Definition twin_input : DataFrame :=
  mkDF listing_columns
       [listing 900000 12 2015 "Civic"; listing 900000 12 2015 "civic "].

(** The numbers held by the cells of a column. *)
Fixpoint the_numbers (vals : list value) : list Q :=
  match vals with
  | [] => []
  | Num q :: vals' => q :: the_numbers vals'
  | _ :: vals' => the_numbers vals'
  end.

(** The mean as [Series.mean] computes it from the numbers of a column. *)
Definition Qmean (qs : list Q) : Q :=
  (Qsum qs / inject_Z (Z.of_nat (List.length qs)))%Q.


(** A row with a missing cell. *)
Definition has_missing (r : row) : bool := negb (forallb notnull r).

(** The two bounds of the outlier filter of the scatter chart. *)
Definition within_bounds (v : value) : bool :=
  match v with
  | Num q => Qle_bool q (300 # 1) && Qle_bool (1 # 1) q
  | _ => false
  end.

(** A table whose [model] column holds numbers. *)
Definition numeric_model_input : DataFrame :=
  mkDF [("price", numeric); ("mileage", numeric); ("year", numeric); ("model", numeric)]
       [[Num (inject_Z 900000); Num (inject_Z 12); Num (inject_Z 2015); Num (inject_Z 3)]].

(** A price in lakhs: the price divided by 100000. *)
Definition in_lakhs (v : value) : value :=
  match v with
  | Num q => Num (q / lakh)
  | _ => NaN
  end.

(** Three listings with their fuel type. *)
Definition fuel_input : DataFrame :=
  mkDF [("price", numeric); ("mileage", numeric); ("year", numeric); ("fuel_type", object)]
       [[Num (inject_Z 900000); Num (inject_Z 12); Num (inject_Z 2015); Str "petrol"];
        [Num (inject_Z 50000); Num (inject_Z 9); Num (inject_Z 2001); Str "diesel"];
        [Num (inject_Z 650000); Num (inject_Z 15); Num (inject_Z 2012); Str "petrol"]].

(** The values of a column in the rows whose key equals [k]. *)
Definition group_values (k : value) (keys vals : list value) : list value :=
  map snd (filter (fun kv => value_eqb k (fst kv)) (combine keys vals)).

(** Whether the [i]-th block of the reporting stage drew its chart. *)
Definition drawn (charts : list (option chart)) (i : nat) : bool :=
  match nth i charts None with
  | Some _ => true
  | None => false
  end.

(** Text made of ASCII characters only. *)
Fixpoint ascii_string (s : string) : bool :=
  match s with
  | EmptyString => true
  | String c s' => (nat_of_ascii c <? 128) && ascii_string s'
  end.

Definition ascii_value (v : value) : bool :=
  match v with
  | Str s => ascii_string s
  | _ => true
  end.

(** Every text of the table is ASCII text: there [strip] and [lower] are
    Python's [str.strip] and [str.lower]. *)
Definition ascii_text (data : DataFrame) : Prop :=
  Forall (fun r => forallb ascii_value r = true) (rows data).



(** A listing without price and year, and a complete one. *)
Definition missing_input : DataFrame :=
  mkDF listing_columns
       [[NaN; Num (inject_Z 12); NaN; Str "civic"];
        listing 650000 15 2012 "mehran"].


(** * Proofs *)

(** ** Lists, masks and sub-sequences *)

Lemma select_map_filter (A : Type) (f : A -> bool) (l : list A) :
  select (map f l) l = filter f l.
Proof.
  induction l as [|x l IH]; simpl; [reflexivity|].
  rewrite IH. reflexivity.
Qed.

Lemma Subseq_refl (A : Type) (l : list A) : Subseq l l.
Proof. induction l; constructor; assumption. Qed.

Lemma Subseq_trans (A : Type) (l1 l2 l3 : list A) :
  Subseq l1 l2 -> Subseq l2 l3 -> Subseq l1 l3.
Proof.
  intros H12 H23. revert l1 H12.
  induction H23 as [|x l2 l3 _ IH|x l2 l3 _ IH]; intros l1 H12.
  - assumption.
  - apply Subseq_skip. apply IH. assumption.
  - inversion H12; subst.
    + apply Subseq_skip. apply IH. assumption.
    + apply Subseq_keep. apply IH. assumption.
Qed.

Lemma select_Subseq (A : Type) (mask : list bool) (l : list A) :
  Subseq (select mask l) l.
Proof.
  assert (Hnil : forall l' : list A, Subseq [] l')
    by (induction l'; constructor; assumption).
  revert mask. induction l as [|x l IH]; intros [|b mask]; simpl;
    try apply Hnil.
  destruct b; [apply Subseq_keep|apply Subseq_skip]; apply IH.
Qed.

Lemma Subseq_length (A : Type) (l1 l2 : list A) :
  Subseq l1 l2 -> List.length l1 <= List.length l2.
Proof. induction 1; simpl; lia. Qed.

Lemma Subseq_In (A : Type) (l1 l2 : list A) (x : A) :
  Subseq l1 l2 -> In x l1 -> In x l2.
Proof.
  induction 1; simpl; intros Hin; auto.
  destruct Hin; auto.
Qed.

Lemma Subseq_map (A B : Type) (f : A -> B) (l1 l2 : list A) :
  Subseq l1 l2 -> Subseq (map f l1) (map f l2).
Proof. induction 1; simpl; constructor; assumption. Qed.

Lemma filter_length_le (A : Type) (f : A -> bool) (l : list A) :
  List.length (filter f l) <= List.length l.
Proof. induction l; simpl; [lia|]. destruct (f a); simpl; lia. Qed.

Lemma filter_all (A : Type) (f : A -> bool) (l : list A) :
  forallb f l = true -> filter f l = l.
Proof.
  induction l as [|x l IH]; simpl; [reflexivity|].
  intros H. apply andb_true_iff in H. destruct H as [Hx Hl].
  rewrite Hx, IH by assumption. reflexivity.
Qed.

Lemma set_nth_same (A : Type) (d : A) (j : nat) (l : list A) :
  set_nth j (nth j l d) l = l.
Proof.
  revert j. induction l as [|x l IH]; intros [|j]; simpl; try reflexivity.
  rewrite IH. reflexivity.
Qed.

Lemma set_nth_length (A : Type) (j : nat) (v : A) (l : list A) :
  List.length (set_nth j v l) = List.length l.
Proof.
  revert j. induction l as [|x l IH]; intros [|j]; simpl; auto.
Qed.

Lemma nth_set_nth (A : Type) (d : A) (i j : nat) (v : A) (l : list A) :
  nth i (set_nth j v l) d =
  if (i =? j) && (j <? List.length l) then v else nth i l d.
Proof.
  revert i j. induction l as [|x l IH]; intros i j; simpl.
  - rewrite andb_false_r. destruct j; reflexivity.
  - destruct j as [|j], i as [|i]; simpl; try reflexivity.
    rewrite IH. reflexivity.
Qed.

(** ** Equality of cells and rows *)

Lemma value_eqb_refl (v : value) : value_eqb v v = true.
Proof.
  destruct v; simpl; auto using String.eqb_refl, Qeq_bool_refl.
Qed.

Lemma value_eqb_sym (a b : value) : value_eqb a b = value_eqb b a.
Proof.
  destruct a, b; simpl; auto using String.eqb_sym, Qeq_bool_comm.
Qed.

Lemma value_eqb_trans (a b c : value) :
  value_eqb a b = true -> value_eqb b c = true -> value_eqb a c = true.
Proof.
  destruct a, b, c; simpl; try discriminate; auto.
  - rewrite !String.eqb_eq. congruence.
  - apply Qeq_bool_trans.
Qed.

Lemma row_eqb_refl (r : row) : row_eqb r r = true.
Proof.
  induction r as [|v r IH]; simpl; [reflexivity|].
  rewrite value_eqb_refl, IH. reflexivity.
Qed.

Lemma row_eqb_sym (r1 r2 : row) : row_eqb r1 r2 = row_eqb r2 r1.
Proof.
  revert r2. induction r1 as [|a r1 IH]; intros [|b r2]; simpl; auto.
  rewrite value_eqb_sym, IH. reflexivity.
Qed.

Lemma row_eqb_trans (r1 r2 r3 : row) :
  row_eqb r1 r2 = true -> row_eqb r2 r3 = true -> row_eqb r1 r3 = true.
Proof.
  revert r2 r3. induction r1 as [|a r1 IH]; intros [|b r2] [|c r3]; simpl;
    try discriminate; auto.
  rewrite !andb_true_iff. intros [Hab H12] [Hbc H23]. split.
  - eapply value_eqb_trans; eassumption.
  - eapply IH; eassumption.
Qed.

(** ** Deduplication *)

Lemma duplicated_from_length (seen rs : list row) :
  List.length (duplicated_from seen rs) = List.length rs.
Proof.
  revert seen. induction rs as [|r rs IH]; intros seen; simpl; auto.
Qed.

Lemma duplicated_from_FirstOccurrences (seen rs : list row) :
  FirstOccurrences seen rs (select (map negb (duplicated_from seen rs)) rs).
Proof.
  revert seen. induction rs as [|r rs IH]; intros seen; simpl.
  - constructor.
  - destruct (existsb (row_eqb r) seen) eqn:E; simpl.
    + apply FO_drop; [|apply IH].
      apply existsb_exists in E. destruct E as [e [Hin He]].
      exists e. split; assumption.
    + apply FO_keep; [|apply IH].
      intros e Hin. destruct (row_eqb r e) eqn:Ee; [|reflexivity].
      assert (existsb (row_eqb r) seen = true) as Habs
        by (apply existsb_exists; exists e; split; assumption).
      congruence.
Qed.

(** The relation determines the result. *)
Lemma FirstOccurrences_unique (seen rs out1 out2 : list row) :
  FirstOccurrences seen rs out1 -> FirstOccurrences seen rs out2 -> out1 = out2.
Proof.
  intros H1. revert out2.
  induction H1 as [seen|seen r rs out [e [Hin He]] _ IH|seen r rs out Hno _ IH];
    intros out2 H2; inversion H2; subst.
  - reflexivity.
  - apply IH. assumption.
  - rewrite (H3 e Hin) in He. discriminate.
  - destruct H3 as [e [Hin He]]. rewrite (Hno e Hin) in He. discriminate.
  - f_equal. apply IH. assumption.
Qed.

Lemma duplicated_position (seen pre post : list row) (r : row) :
  nth (List.length pre) (duplicated_from seen (pre ++ r :: post)) false =
  existsb (row_eqb r) (seen ++ pre).
Proof.
  revert seen. induction pre as [|p pre IH]; intros seen; simpl.
  - rewrite app_nil_r. reflexivity.
  - rewrite IH, <- app_assoc. reflexivity.
Qed.

Lemma drop_duplicates_rows (data : DataFrame) :
  rows (drop_duplicates data) =
  select (map negb (duplicated (rows data))) (rows data).
Proof. reflexivity. Qed.

Lemma select_negb_length (mask : list bool) (A : Type) (l : list A) :
  List.length mask = List.length l ->
  List.length (select (map negb mask) l) + count_true mask = List.length l.
Proof.
  revert l. induction mask as [|b mask IH]; intros [|x l]; simpl;
    try discriminate; auto.
  intros Hlen. injection Hlen as Hlen. specialize (IH l Hlen).
  unfold count_true in *. destruct b; simpl; lia.
Qed.

(** ** Missing cells, by column and by row *)

Lemma list_sum_map_add (A : Type) (f g : A -> nat) (l : list A) :
  list_sum (map (fun x => f x + g x) l) = list_sum (map f l) + list_sum (map g l).
Proof. induction l as [|x l IH]; simpl; lia. Qed.

Lemma list_sum_map_zero (A : Type) (l : list A) :
  list_sum (map (fun _ => 0) l) = 0.
Proof. induction l; simpl; auto. Qed.

Lemma count_true_cons (b : bool) (l : list bool) :
  count_true (b :: l) = indicator b + count_true l.
Proof. unfold count_true. destruct b; reflexivity. Qed.

Lemma row_missing_by_position (r : row) :
  list_sum (map (fun j => indicator (isnull (cell j r))) (seq 0 (List.length r))) =
  count_true (map isnull r).
Proof.
  induction r as [|v r IH]; [reflexivity|].
  cbn [List.length map]. rewrite count_true_cons, <- IH.
  cbn [seq map list_sum]. f_equal.
  rewrite <- seq_shift, map_map. reflexivity.
Qed.

Lemma missing_by_column (n : nat) (rs : list row) :
  Forall (fun r => List.length r = n) rs ->
  list_sum (map (fun j => count_true (map isnull (map (cell j) rs))) (seq 0 n)) =
  missing_cells rs.
Proof.
  induction 1 as [|r rs Hr _ IH]; unfold missing_cells; simpl.
  - apply list_sum_map_zero.
  - fold (missing_cells rs). rewrite <- IH, <- row_missing_by_position, Hr.
    rewrite <- list_sum_map_add. f_equal. apply map_ext. intros j.
    apply count_true_cons.
Qed.

Lemma row_fits_length (cols : list (string * dtype)) (r : row) :
  row_fits cols r = true -> List.length r = List.length cols.
Proof.
  revert r. induction cols as [|[c dt] cols IH]; intros [|v r]; simpl;
    try discriminate; auto.
  intros H. apply andb_true_iff in H. destruct H as [_ H].
  f_equal. apply IH. assumption.
Qed.

Lemma well_formed_lengths (data : DataFrame) :
  well_formed data ->
  Forall (fun r => List.length r = List.length (columns data)) (rows data).
Proof.
  intros [_ H]. eapply Forall_impl; [|exact H].
  intros r. apply row_fits_length.
Qed.

Lemma forallb_notnull_In (r : row) :
  forallb notnull r = true <-> ~ In NaN r.
Proof.
  rewrite forallb_forall. split.
  - intros H Hin. specialize (H NaN Hin). discriminate.
  - intros H v Hin. destruct v; try reflexivity. contradiction.
Qed.

(** ** The deduplication step and the order of the rows *)

(** C6: the deduplication step removes exactly the rows equal to an earlier
    row of the table and keeps the first occurrence; the count it reports is
    the number of rows it marked; each filtering step of the cleaning block
    returns a sub-sequence of the rows it was given; and for rows [A; A; B]
    with [A] different from [B] the result is [A; B] with a count of 1. *)
Theorem drop_duplicates_keeps_first_in_order :
  (forall data,
      columns (drop_duplicates data) = columns data /\
      FirstOccurrences [] (rows data) (rows (drop_duplicates data)) /\
      (forall pre r post, rows data = pre ++ r :: post ->
         nth (List.length pre) (duplicated (rows data)) false =
         existsb (row_eqb r) pre) /\
      snd (remove_duplicates data) = Z.of_nat (count_true (duplicated (rows data)))) /\
  (forall data,
      Subseq (rows (drop_duplicates data)) (rows data) /\
      Subseq (rows (dropna data)) (rows data) /\
      (forall labels data', dropna_subset labels data = Ok data' ->
         Subseq (rows data') (rows data))) /\
  (forall cols A B, row_eqb A B = false ->
      remove_duplicates (mkDF cols [A; A; B]) = (mkDF cols [A; B], 1%Z)).
Proof.
  split; [|split].
  - intros data. split; [reflexivity|]. split; [|split].
    + apply duplicated_from_FirstOccurrences.
    + intros pre r post Hrows. rewrite Hrows.
      apply (duplicated_position [] pre post r).
    + unfold remove_duplicates, len. cbn [snd].
      rewrite drop_duplicates_rows.
      pose proof (select_negb_length (duplicated (rows data)) row (rows data)
                    (duplicated_from_length [] (rows data))) as Hlen.
      lia.
  - intros data. split; [|split].
    + apply select_Subseq.
    + apply select_Subseq.
    + intros labels data'. unfold dropna_subset.
      destruct (filter _ labels); [|discriminate].
      intros H. injection H as <-. apply select_Subseq.
  - intros cols A B Hne. unfold remove_duplicates, drop_duplicates, duplicated, len.
    cbn. rewrite !row_eqb_refl. rewrite (row_eqb_sym B A), Hne. reflexivity.
Qed.

Lemma drop_duplicates_keeps_first_in_order_witness :
  remove_duplicates
    (mkDF listing_columns
          [listing 900000 12 2015 "civic"; listing 900000 12 2015 "civic";
           listing 650000 15 2012 "mehran"]) =
  (mkDF listing_columns
        [listing 900000 12 2015 "civic"; listing 650000 15 2012 "mehran"], 1%Z).
Proof.
  apply (proj2 (proj2 drop_duplicates_keeps_first_in_order)).
  reflexivity.
Defined.

(** ** The missing-value step *)

(** C5: the missing-value step keeps, in their order, exactly the rows
    without a missing cell, and the count it reports is the number of
    missing cells of the table it was given; that number can differ from
    the number of rows removed. *)
Theorem handle_missing_removes_rows_counts_cells :
  (forall data, well_formed data ->
      columns (fst (handle_missing data)) = columns data /\
      rows (fst (handle_missing data)) =
        filter (fun r => forallb notnull r) (rows data) /\
      (forall r, In r (rows (fst (handle_missing data))) <->
                 In r (rows data) /\ ~ In NaN r) /\
      Subseq (rows (fst (handle_missing data))) (rows data) /\
      snd (handle_missing data) = Z.of_nat (missing_cells (rows data))) /\
  (exists data, well_formed data /\
      snd (handle_missing data) = 2%Z /\
      (Z.of_nat (len data) - Z.of_nat (len (fst (handle_missing data))) = 1)%Z).
Proof.
  split.
  - intros data Hwf. unfold handle_missing. cbn [fst snd].
    assert (Hrows : rows (dropna data) = filter (fun r => forallb notnull r) (rows data))
      by apply select_map_filter.
    split; [reflexivity|]. split; [exact Hrows|]. split; [|split].
    + intros r. rewrite Hrows, filter_In, forallb_notnull_In. reflexivity.
    + apply select_Subseq.
    + f_equal. unfold isnull_sum_sum, isnull_sum, column_values.
      apply missing_by_column. apply well_formed_lengths. assumption.
  - exists (mkDF listing_columns
                 [[NaN; Num (inject_Z 12); NaN; Str "civic"];
                  listing 650000 15 2012 "mehran"]).
    split; [|split; reflexivity].
    split.
    + cbn. repeat constructor; cbn; intuition discriminate.
    + repeat constructor.
Qed.

Lemma handle_missing_removes_rows_counts_cells_witness :
  snd (handle_missing
         (mkDF listing_columns
               [[NaN; Num (inject_Z 12); NaN; Str "civic"];
                listing 650000 15 2012 "mehran"])) =
  Z.of_nat (missing_cells [[NaN; Num (inject_Z 12); NaN; Str "civic"];
                           listing 650000 15 2012 "mehran"]).
Proof.
  apply (proj1 handle_missing_removes_rows_counts_cells).
  split.
  - cbn. repeat constructor; cbn; intuition discriminate.
  - repeat constructor.
Defined.

(** ** Column labels and column assignment *)

Lemma get_loc_Some (name : string) (cols : list (string * dtype)) (j : nat) :
  get_loc name cols = Some j ->
  j < List.length cols /\ fst (nth j cols ("", object)) = name.
Proof.
  revert j. induction cols as [|[c dt] cols IH]; intros j; simpl; [discriminate|].
  destruct (String.eqb c name) eqn:E.
  - intros H. injection H as <-. apply String.eqb_eq in E. simpl. split; [lia|assumption].
  - destruct (get_loc name cols) as [k|]; simpl; [|discriminate].
    intros H. injection H as <-. destruct (IH k eq_refl) as [Hlt Hname].
    split; [lia|assumption].
Qed.

Lemma get_loc_names (name : string) (c1 c2 : list (string * dtype)) :
  map fst c1 = map fst c2 -> get_loc name c1 = get_loc name c2.
Proof.
  revert c2. induction c1 as [|[a da] c1 IH]; intros [|[b db] c2]; simpl;
    try discriminate; auto.
  intros H. injection H as -> H. rewrite (IH c2 H). reflexivity.
Qed.

Lemma get_indexer_names (labels : list string) (c1 c2 : list (string * dtype)) :
  map fst c1 = map fst c2 -> get_indexer labels c1 = get_indexer labels c2.
Proof.
  intros H. unfold get_indexer. induction labels as [|l labels IH]; simpl;
    [reflexivity|].
  rewrite (get_loc_names l _ _ H), IH. reflexivity.
Qed.

Lemma in_columns_names (name : string) (d1 d2 : DataFrame) :
  map fst (columns d1) = map fst (columns d2) ->
  in_columns name d1 = in_columns name d2.
Proof.
  intros H. unfold in_columns. rewrite (get_loc_names name _ _ H). reflexivity.
Qed.

Lemma map_set_nth (A B : Type) (f : A -> B) (j : nat) (x : A) (l : list A) :
  map f (set_nth j x l) = set_nth j (f x) (map f l).
Proof.
  revert j. induction l as [|y l IH]; intros [|j]; simpl; try reflexivity.
  rewrite IH. reflexivity.
Qed.

Lemma names_set_nth (name : string) (dt : dtype) (cols : list (string * dtype)) (j : nat) :
  get_loc name cols = Some j ->
  map fst (set_nth j (name, dt) cols) = map fst cols.
Proof.
  intros H. destruct (get_loc_Some _ _ _ H) as [_ Hname].
  rewrite map_set_nth. cbn [fst].
  rewrite <- Hname at 1.
  change "" with (fst ("", object)).
  rewrite <- (map_nth fst). apply set_nth_same.
Qed.

Lemma combine_map_self (A B C : Type) (f : A -> B) (g : A * B -> C) (l : list A) :
  map g (combine l (map f l)) = map (fun x => g (x, f x)) l.
Proof.
  induction l as [|x l IH]; simpl; [reflexivity|].
  rewrite IH. reflexivity.
Qed.

Lemma setitem_present (data : DataFrame) (name : string) (dt : dtype)
      (f : value -> value) (j : nat) :
  get_loc name (columns data) = Some j ->
  setitem data name (dt, map f (column_values j data)) =
  mkDF (set_nth j (name, dt) (columns data)) (map (upd j f) (rows data)).
Proof.
  intros H. unfold setitem. rewrite H. cbn [fst snd]. f_equal.
  unfold column_values. rewrite map_map.
  rewrite (combine_map_self _ _ _ (fun r => f (cell j r))
             (fun rv => set_nth j (snd rv) (fst rv))). reflexivity.
Qed.

Lemma upd_length (j : nat) (f : value -> value) (r : row) :
  List.length (upd j f r) = List.length r.
Proof. apply set_nth_length. Qed.

Lemma upd_all_length (f : value -> value) (locs : list nat) (r : row) :
  List.length (upd_all f locs r) = List.length r.
Proof.
  revert r. induction locs as [|j locs IH]; intros r; simpl; [reflexivity|].
  unfold upd_all in *. simpl. rewrite IH. apply upd_length.
Qed.

Lemma cell_upd (i j : nat) (f : value -> value) (r : row) :
  cell i (upd j f r) =
  if (i =? j) && (j <? List.length r) then f (cell j r) else cell i r.
Proof. unfold cell, upd. apply nth_set_nth. Qed.

Lemma cell_upd_all_other (f : value -> value) (locs : list nat) (i : nat) (r : row) :
  ~ In i locs -> cell i (upd_all f locs r) = cell i r.
Proof.
  revert r. induction locs as [|j locs IH]; intros r Hnot; [reflexivity|].
  unfold upd_all in *. simpl. rewrite IH by (intros Hin; apply Hnot; right; assumption).
  rewrite cell_upd. destruct (Nat.eqb_spec i j) as [->|_]; [|reflexivity].
  exfalso. apply Hnot. left. reflexivity.
Qed.

Lemma cell_upd_all_at (f : value -> value) (locs : list nat) (i : nat) (r : row) :
  (forall v, f (f v) = f v) ->
  In i locs -> i < List.length r ->
  cell i (upd_all f locs r) = f (cell i r).
Proof.
  intros Hidem. revert r. induction locs as [|j locs IH]; intros r Hin Hlt;
    [contradiction|].
  unfold upd_all in *. simpl.
  assert (Hstep : forall r', List.length r' = List.length r ->
            (cell i r' = f (cell i r) \/ (cell i r' = cell i r /\ In i locs)) ->
            cell i (fold_left (fun r'' j' => upd j' f r'') locs r') = f (cell i r)).
  { intros r' Hlen [Heq|[Heq Hin']].
    - destruct (in_dec Nat.eq_dec i locs) as [Hi|Hi].
      + rewrite IH by (assumption || lia). rewrite Heq. apply Hidem.
      + fold (upd_all f locs r'). rewrite cell_upd_all_other by assumption.
        assumption.
    - rewrite IH by (assumption || lia). rewrite Heq. reflexivity. }
  apply Hstep; [apply upd_length|].
  rewrite cell_upd. destruct (Nat.eqb_spec i j) as [->|Hne]; simpl.
  - left. apply Nat.ltb_lt in Hlt. rewrite Hlt. reflexivity.
  - right. split; [reflexivity|]. destruct Hin as [Hin|Hin]; [congruence|assumption].
Qed.

(** ** Coercion of the numeric columns *)

Section CleaningProofs.

Variable parse_number : string -> option Q.

Local Abbreviation coerce := (coerce parse_number).

Lemma coerce_idempotent (v : value) : coerce (coerce v) = coerce v.
Proof.
  destruct v as [|s|q]; simpl; try reflexivity.
  destruct (parse_number s); reflexivity.
Qed.

Lemma coerce_column_present (data : DataFrame) (col : string) (j : nat) :
  get_loc col (columns data) = Some j ->
  coerce_column parse_number data col =
  mkDF (set_nth j (col, numeric) (columns data)) (map (upd j coerce) (rows data)).
Proof.
  intros H. unfold coerce_column, in_columns, getitem. rewrite H.
  unfold to_numeric. cbn [snd]. apply setitem_present. assumption.
Qed.

Lemma coerce_column_absent (data : DataFrame) (col : string) :
  get_loc col (columns data) = None ->
  coerce_column parse_number data col = data.
Proof.
  intros H. unfold coerce_column, in_columns. rewrite H. reflexivity.
Qed.

Lemma coerce_columns_spec (labels : list string) (data : DataFrame) :
  map fst (columns (coerce_columns parse_number labels data)) = map fst (columns data) /\
  rows (coerce_columns parse_number labels data) =
    map (upd_all coerce (get_indexer labels (columns data))) (rows data) /\
  (forall i, ~ In i (get_indexer labels (columns data)) ->
     nth i (columns (coerce_columns parse_number labels data)) ("", object) =
     nth i (columns data) ("", object)).
Proof.
  revert data. induction labels as [|l labels IH]; intros data.
  - cbn. split; [reflexivity|]. split; [|reflexivity].
    symmetry. apply map_id.
  - unfold coerce_columns. cbn [fold_left]. fold (coerce_columns parse_number labels).
    unfold get_indexer. cbn [flat_map]. fold (get_indexer labels (columns data)).
    destruct (get_loc l (columns data)) as [j|] eqn:Hloc.
    + rewrite (coerce_column_present data l j Hloc).
      set (data1 := mkDF _ _).
      assert (Hnames : map fst (columns data1) = map fst (columns data))
        by (apply names_set_nth; assumption).
      destruct (IH data1) as [IHn [IHr IHd]].
      rewrite (get_indexer_names labels _ _ Hnames) in IHr, IHd.
      change (fold_left (coerce_column parse_number) labels data1)
        with (coerce_columns parse_number labels data1).
      split; [congruence|]. split.
      * rewrite IHr. subst data1. cbn [rows]. rewrite map_map. reflexivity.
      * intros i Hnot. rewrite IHd by (intros Hin; apply Hnot; simpl; auto).
        subst data1. cbn [columns]. rewrite nth_set_nth.
        destruct (Nat.eqb_spec i j) as [->|_]; [|reflexivity].
        exfalso. apply Hnot. left. reflexivity.
    + rewrite (coerce_column_absent data l Hloc). apply IH.
Qed.

(** ** The invalid-row step *)

Lemma dropna_subset_present (labels : list string) (data : DataFrame) :
  forallb (fun c => in_columns c data) labels = true ->
  dropna_subset labels data =
  Ok (mkDF (columns data)
           (filter (fun r => forallb (fun j => notnull (cell j r))
                                     (get_indexer labels (columns data)))
                   (rows data))).
Proof.
  intros H. unfold dropna_subset.
  assert (Hnone : filter (fun c => negb (in_columns c data)) labels = []).
  { induction labels as [|l labels IH]; [reflexivity|].
    simpl in H |- *. apply andb_true_iff in H. destruct H as [Hl H].
    rewrite Hl. simpl. apply IH. assumption. }
  rewrite Hnone, select_map_filter. reflexivity.
Qed.

Lemma dropna_subset_absent (labels : list string) (data : DataFrame) :
  forallb (fun c => in_columns c data) labels = false ->
  dropna_subset labels data =
  Raise (KeyError (filter (fun c => negb (in_columns c data)) labels)).
Proof.
  intros H. unfold dropna_subset.
  destruct (filter (fun c => negb (in_columns c data)) labels) as [|a absent] eqn:E;
    [|reflexivity].
  exfalso. assert (Hall : forallb (fun c => in_columns c data) labels = true).
  { apply forallb_forall. intros c Hc.
    destruct (in_columns c data) eqn:Ec; [reflexivity|].
    assert (In c (filter (fun c => negb (in_columns c data)) labels)) as Hin
      by (apply filter_In; rewrite Ec; auto).
    rewrite E in Hin. contradiction. }
  congruence.
Qed.

End CleaningProofs.

(** ** Stripping and lower-casing *)

Lemma lower_char_not_upper (c : ascii) : is_upper (lower_char c) = false.
Proof.
  destruct c as [[] [] [] [] [] [] [] []]; reflexivity.
Qed.

Lemma lower_char_space (c : ascii) : is_space (lower_char c) = is_space c.
Proof.
  destruct c as [[] [] [] [] [] [] [] []]; reflexivity.
Qed.

Lemma lower_char_idempotent (c : ascii) : lower_char (lower_char c) = lower_char c.
Proof.
  unfold lower_char at 1. rewrite lower_char_not_upper. reflexivity.
Qed.

Lemma lower_idempotent (s : string) : lower (lower s) = lower s.
Proof.
  induction s as [|c s IH]; simpl; [reflexivity|].
  rewrite lower_char_idempotent, IH. reflexivity.
Qed.

Lemma lstrip_lower (s : string) : lstrip (lower s) = lower (lstrip s).
Proof.
  induction s as [|c s IH]; simpl; [reflexivity|].
  rewrite lower_char_space. destruct (is_space c); [assumption|reflexivity].
Qed.

Lemma rstrip_lower (s : string) : rstrip (lower s) = lower (rstrip s).
Proof.
  induction s as [|c s IH]; simpl; [reflexivity|].
  rewrite IH, lower_char_space.
  destruct (rstrip s); simpl; [destruct (is_space c)|]; reflexivity.
Qed.

Lemma strip_lower (s : string) : strip (lower s) = lower (strip s).
Proof. unfold strip. rewrite lstrip_lower, rstrip_lower. reflexivity. Qed.

Lemma rstrip_idempotent (s : string) : rstrip (rstrip s) = rstrip s.
Proof.
  induction s as [|c s IH]; simpl; [reflexivity|].
  destruct (rstrip s) as [|d t] eqn:E.
  - destruct (is_space c) eqn:Ec; simpl; [reflexivity|]. rewrite Ec. reflexivity.
  - change (rstrip (String c (String d t)))
      with (match rstrip (String d t) with
            | EmptyString => if is_space c then EmptyString else String c EmptyString
            | String d' t' => String c (String d' t')
            end).
    rewrite IH. reflexivity.
Qed.

Lemma lstrip_rstrip_lstrip (s : string) : lstrip (rstrip (lstrip s)) = rstrip (lstrip s).
Proof.
  induction s as [|c s IH]; simpl; [reflexivity|].
  destruct (is_space c) eqn:Ec; [assumption|].
  simpl. destruct (rstrip s); rewrite ?Ec; simpl; rewrite ?Ec; reflexivity.
Qed.

Lemma strip_idempotent (s : string) : strip (strip s) = strip s.
Proof.
  unfold strip. rewrite lstrip_rstrip_lstrip. apply rstrip_idempotent.
Qed.

Lemma norm_cell_idempotent (v : value) : norm_cell (norm_cell v) = norm_cell v.
Proof.
  destruct v as [|s|q]; simpl; try reflexivity.
  rewrite strip_lower, strip_idempotent, lower_idempotent. reflexivity.
Qed.

(** ** Normalisation of the categorical columns *)

Lemma nth_columns_default (j : nat) (cols : list (string * dtype)) (d : string * dtype) :
  j < List.length cols -> nth j cols d = nth j cols ("", object).
Proof. intros H. apply nth_indep. assumption. Qed.

Lemma set_nth_column_same (name : string) (dt : dtype) (cols : list (string * dtype)) (j : nat) :
  get_loc name cols = Some j -> dtype_at j cols = dt ->
  set_nth j (name, dt) cols = cols.
Proof.
  intros Hloc Hdt. destruct (get_loc_Some _ _ _ Hloc) as [_ Hname].
  unfold dtype_at in Hdt.
  replace (name, dt) with (nth j cols ("", object)).
  - apply set_nth_same.
  - destruct (nth j cols ("", object)) as [n d]. simpl in *. congruence.
Qed.

Lemma normalize_column_present (data : DataFrame) (col : string) (j : nat) :
  get_loc col (columns data) = Some j ->
  normalize_column data col =
  if is_object (dtype_at j (columns data))
  then Ok (mkDF (columns data) (map (upd j norm_cell) (rows data)))
  else Raise AttributeError.
Proof.
  intros H. destruct (get_loc_Some _ _ _ H) as [Hlt _].
  unfold normalize_column, in_columns, getitem. rewrite H. cbn [bind].
  rewrite (nth_columns_default j (columns data) (col, object) Hlt).
  fold (dtype_at j (columns data)).
  destruct (dtype_at j (columns data)) eqn:Hdt; [reflexivity|].
  unfold str_strip, str_lower, str_method, str_accessor. cbn [fst snd bind is_object].
  rewrite map_map.
  rewrite (map_ext _ norm_cell) by (intros [|s|q]; reflexivity).
  rewrite (setitem_present data col object norm_cell j H).
  rewrite (set_nth_column_same col object (columns data) j H Hdt). reflexivity.
Qed.

Lemma normalize_column_absent (data : DataFrame) (col : string) :
  get_loc col (columns data) = None -> normalize_column data col = Ok data.
Proof.
  intros H. unfold normalize_column, in_columns. rewrite H. reflexivity.
Qed.

Lemma normalize_columns_spec (labels : list string) (data : DataFrame) :
  normalize_columns labels data =
  if all_object labels (columns data)
  then Ok (mkDF (columns data)
                (map (upd_all norm_cell (get_indexer labels (columns data))) (rows data)))
  else Raise AttributeError.
Proof.
  revert data. induction labels as [|l labels IH]; intros data.
  - cbn. rewrite map_id. destruct data; reflexivity.
  - cbn [normalize_columns all_object forallb]. fold (all_object labels (columns data)).
    unfold get_indexer. cbn [flat_map]. fold (get_indexer labels (columns data)).
    destruct (get_loc l (columns data)) as [j|] eqn:Hloc.
    + rewrite (normalize_column_present data l j Hloc).
      destruct (is_object (dtype_at j (columns data))); [|reflexivity].
      cbn [bind andb]. rewrite IH. cbn [columns rows].
      destruct (all_object labels (columns data)); [|reflexivity].
      rewrite map_map. reflexivity.
    + rewrite (normalize_column_absent data l Hloc). cbn [bind andb app].
      apply IH.
Qed.

Lemma In_get_indexer (labels : list string) (cols : list (string * dtype)) (i : nat) :
  In i (get_indexer labels cols) <->
  exists c, In c labels /\ get_loc c cols = Some i.
Proof.
  unfold get_indexer. rewrite in_flat_map. split.
  - intros [c [Hc Hi]]. exists c. split; [assumption|].
    destruct (get_loc c cols) as [j|]; simpl in Hi; [|contradiction].
    destruct Hi as [->|[]]. reflexivity.
  - intros [c [Hc Hi]]. exists c. split; [assumption|]. rewrite Hi. left. reflexivity.
Qed.

Lemma numeric_categorical_disjoint (cols : list (string * dtype)) (i : nat) :
  In i (get_indexer numeric_columns cols) ->
  In i (get_indexer categorical_columns cols) -> False.
Proof.
  rewrite !In_get_indexer. intros [c [Hc Hi]] [c' [Hc' Hi']].
  apply get_loc_Some in Hi, Hi'. destruct Hi as [_ Hi], Hi' as [_ Hi'].
  rewrite Hi in Hi'. subst c'.
  unfold numeric_columns, categorical_columns in *. simpl in Hc, Hc'.
  repeat (destruct Hc as [Hc|Hc]; [subst c; intuition discriminate|]).
  contradiction.
Qed.

Section PipelineProofs.

Variable parse_number : string -> option Q.

Local Abbreviation coerce := (coerce parse_number).

Lemma coerce_columns_dtype (labels : list string) (data : DataFrame) (i : nat) :
  In i (get_indexer labels (columns data)) ->
  dtype_at i (columns (coerce_columns parse_number labels data)) = numeric.
Proof.
  revert data. induction labels as [|l labels IH]; intros data; [contradiction|].
  unfold get_indexer. cbn [flat_map]. fold (get_indexer labels (columns data)).
  unfold coerce_columns. cbn [fold_left].
  destruct (get_loc l (columns data)) as [j|] eqn:Hloc.
  - rewrite (coerce_column_present parse_number data l j Hloc).
    set (data1 := mkDF _ _).
    change (fold_left (coerce_column parse_number) labels data1)
      with (coerce_columns parse_number labels data1).
    assert (Hnames : map fst (columns data1) = map fst (columns data))
      by (apply names_set_nth; assumption).
    intros Hin.
    destruct (in_dec Nat.eq_dec i (get_indexer labels (columns data))) as [Hi|Hi].
    + apply IH. rewrite (get_indexer_names labels _ _ Hnames). assumption.
    + destruct Hin as [<-|Hin]; [|contradiction].
      destruct (coerce_columns_spec parse_number labels data1) as [_ [_ Hd]].
      unfold dtype_at. rewrite Hd
        by (rewrite (get_indexer_names labels _ _ Hnames); assumption).
      subst data1. cbn [columns]. rewrite nth_set_nth, Nat.eqb_refl.
      destruct (get_loc_Some _ _ _ Hloc) as [Hlt _].
      apply Nat.ltb_lt in Hlt. rewrite Hlt. reflexivity.
  - rewrite (coerce_column_absent parse_number data l Hloc). apply IH.
Qed.

(** The cleaning block in closed form. *)
Lemma clean_pipeline_spec (data : DataFrame) :
  clean_pipeline parse_number data =
  let d1 := drop_duplicates data in
  let d2 := dropna d1 in
  let d3 := coerce_columns parse_number numeric_columns d2 in
  let nlocs := get_indexer numeric_columns (columns data) in
  let clocs := get_indexer categorical_columns (columns data) in
  let rows4 := filter (fun r => forallb (fun j => notnull (cell j r)) nlocs) (rows d3) in
  if forallb (fun c => in_columns c data) numeric_columns then
    if all_object categorical_columns (columns d3) then
      Ok (mkDF (columns d3) (map (upd_all norm_cell clocs) rows4),
          mkReport (Z.of_nat (len data) - Z.of_nat (len d1))
                   (Z.of_nat (isnull_sum_sum d1))
                   (Z.of_nat (len d3) - Z.of_nat (List.length rows4)))
    else Raise AttributeError
  else Raise (KeyError (filter (fun c => negb (in_columns c data)) numeric_columns)).
Proof.
  cbv zeta. unfold clean_pipeline, remove_duplicates, handle_missing, remove_invalid.
  set (d1 := drop_duplicates data). set (d2 := dropna d1).
  set (d3 := coerce_columns parse_number numeric_columns d2).
  destruct (coerce_columns_spec parse_number numeric_columns d2) as [Hnames _].
  fold d3 in Hnames. change (columns d2) with (columns data) in Hnames.
  assert (Hin : forall c, in_columns c d3 = in_columns c data)
    by (intros c; apply in_columns_names; assumption).
  assert (Hall' : forall l, forallb (fun c => in_columns c d3) l =
                            forallb (fun c => in_columns c data) l)
    by (induction l as [|c cs IHcs]; simpl;
        [reflexivity|rewrite Hin, IHcs; reflexivity]).
  pose proof (Hall' numeric_columns) as Hall.
  destruct (forallb (fun c => in_columns c data) numeric_columns) eqn:E.
  - rewrite (dropna_subset_present numeric_columns d3 Hall). cbn [bind fst snd].
    rewrite normalize_columns_spec. cbn [columns rows].
    rewrite !(get_indexer_names _ _ _ Hnames).
    destruct (all_object categorical_columns (columns d3)); reflexivity.
  - rewrite (dropna_subset_absent numeric_columns d3 Hall). cbn [bind].
    do 2 f_equal. apply filter_ext. intros c. rewrite Hin. reflexivity.
Qed.

End PipelineProofs.

(** ** An absent numeric column *)

Lemma clean_pipeline_absent_numeric (parse_number : string -> option Q) (data : DataFrame) :
  forallb (fun c => in_columns c data) numeric_columns = false ->
  clean_pipeline parse_number data =
  Raise (KeyError (filter (fun c => negb (in_columns c data)) numeric_columns)).
Proof.
  intros H. rewrite clean_pipeline_spec. cbv zeta. rewrite H. reflexivity.
Qed.

(** C1: on a table without the [price] column the guarded coercion loop
    and the normalisation loop skip what is absent, but the invalid-row
    step names the column and the cleaning block stops with a [KeyError]. *)
Theorem clean_pipeline_raises_without_price :
  forall parse_number,
    coerce_column parse_number no_price_input "price" = no_price_input /\
    normalize_column no_price_input "color" = Ok no_price_input /\
    clean_pipeline parse_number no_price_input = Raise (KeyError ["price"]).
Proof.
  intros parse_number. split; [reflexivity|]. split; [reflexivity|].
  apply (clean_pipeline_absent_numeric parse_number no_price_input). reflexivity.
Qed.

(** ** Coercion failures and the invalid-row step *)

Lemma filter_map_commute (A B : Type) (f : A -> B) (p : B -> bool) (l : list A) :
  filter p (map f l) = map f (filter (fun x => p (f x)) l).
Proof.
  induction l as [|x l IH]; simpl; [reflexivity|].
  rewrite IH. destruct (p (f x)); reflexivity.
Qed.

Lemma filter_split_length (A : Type) (p : A -> bool) (l : list A) :
  List.length (filter p l) + List.length (filter (fun x => negb (p x)) l) =
  List.length l.
Proof.
  induction l as [|x l IH]; simpl; [reflexivity|].
  destruct (p x); simpl; lia.
Qed.

Lemma cell_out_of_range (j : nat) (r : row) :
  List.length r <= j -> cell j r = NaN.
Proof. intros H. apply nth_overflow. assumption. Qed.

Lemma cell_upd_all_strict (f : value -> value) (locs : list nat) (i : nat) (r : row) :
  (forall v, f (f v) = f v) -> f NaN = NaN ->
  In i locs -> cell i (upd_all f locs r) = f (cell i r).
Proof.
  intros Hidem Hnan Hin. destruct (Nat.lt_ge_cases i (List.length r)) as [Hlt|Hge].
  - apply cell_upd_all_at; assumption.
  - rewrite (cell_out_of_range i r Hge), Hnan.
    apply cell_out_of_range. rewrite upd_all_length. assumption.
Qed.

Section InvalidRows.

Variable parse_number : string -> option Q.

Local Abbreviation coerce := (coerce parse_number).

Lemma isnull_coerce (v : value) :
  isnull (coerce v) = invalid_number parse_number v.
Proof.
  destruct v as [|s|q]; simpl; try reflexivity.
  destruct (parse_number s); reflexivity.
Qed.

Lemma valid_after_coercion (locs : list nat) (r : row) :
  forallb (fun j => notnull (cell j (upd_all coerce locs r))) locs =
  negb (invalid_row parse_number locs r).
Proof.
  unfold invalid_row.
  assert (H : forall l, (forall j, In j l -> In j locs) ->
            forallb (fun j => notnull (cell j (upd_all coerce locs r))) l =
            negb (existsb (fun j => invalid_number parse_number (cell j r)) l)).
  { induction l as [|j l IH]; intros Hsub; simpl; [reflexivity|].
    rewrite IH by (intros k Hk; apply Hsub; right; assumption).
    rewrite negb_orb. f_equal. unfold notnull. f_equal.
    rewrite cell_upd_all_strict.
    - apply isnull_coerce.
    - apply coerce_idempotent.
    - reflexivity.
    - apply Hsub. left. reflexivity. }
  apply H. auto.
Qed.


End InvalidRows.

(** ** The rows of the clean table *)

Lemma has_upper_lower (s : string) : has_upper (lower s) = false.
Proof.
  induction s as [|c s IH]; simpl; [reflexivity|].
  rewrite lower_char_not_upper, IH. reflexivity.
Qed.

Lemma leading_space_lower (s : string) : leading_space (lower s) = leading_space s.
Proof. destruct s; simpl; [reflexivity|apply lower_char_space]. Qed.

Lemma trailing_space_lower (s : string) : trailing_space (lower s) = trailing_space s.
Proof.
  induction s as [|c s IH]; [reflexivity|].
  destruct s as [|d s]; simpl in *; [apply lower_char_space|assumption].
Qed.

Lemma leading_space_strip (s : string) : leading_space (strip s) = false.
Proof.
  unfold strip. induction s as [|c s IH]; simpl; [reflexivity|].
  destruct (is_space c) eqn:Ec; [assumption|].
  simpl. destruct (rstrip s); rewrite ?Ec; simpl; assumption.
Qed.

Lemma trailing_space_rstrip (s : string) : trailing_space (rstrip s) = false.
Proof.
  induction s as [|c s IH]; simpl; [reflexivity|].
  destruct (rstrip s) as [|d t].
  - destruct (is_space c) eqn:Ec; simpl; [reflexivity|assumption].
  - exact IH.
Qed.

Lemma norm_cell_trimmed_lower (s : string) : trimmed_lower (norm_cell (Str s)).
Proof.
  exists (lower (strip s)). split; [reflexivity|].
  rewrite leading_space_lower, trailing_space_lower, has_upper_lower.
  split; [apply leading_space_strip|]. split; [apply trailing_space_rstrip|reflexivity].
Qed.

Lemma trimmed_lower_fixed (v : value) : trimmed_lower v -> norm_cell v = v.
Proof.
  intros [s [-> [Hl [Ht Hu]]]]. simpl. f_equal.
  assert (Hlower : forall t, has_upper t = false -> lower t = t).
  { induction t as [|c t IH]; simpl; [reflexivity|].
    intros H. apply orb_false_iff in H. destruct H as [Hc Ht'].
    unfold lower_char. rewrite Hc, IH by assumption. reflexivity. }
  assert (Hlstrip : forall t, leading_space t = false -> lstrip t = t).
  { intros [|c t]; simpl; [reflexivity|]. intros ->. reflexivity. }
  assert (Hrstrip : forall t, trailing_space t = false -> rstrip t = t).
  { induction t as [|c t IH]; [reflexivity|].
    destruct t as [|d t].
    - simpl. intros ->. reflexivity.
    - intros H. change (trailing_space (String d t) = false) in H.
      change (rstrip (String c (String d t)))
        with (match rstrip (String d t) with
              | EmptyString => if is_space c then EmptyString else String c EmptyString
              | String d' t' => String c (String d' t')
              end).
      rewrite IH by assumption. reflexivity. }
  unfold strip. rewrite Hlstrip, Hrstrip, Hlower by assumption. reflexivity.
Qed.

Lemma row_fits_cell (cols : list (string * dtype)) (r : row) (i : nat) :
  row_fits cols r = true -> i < List.length cols ->
  fits (dtype_at i cols) (cell i r) = true.
Proof.
  revert r i. induction cols as [|[c dt] cols IH]; intros [|v r] i; simpl;
    try discriminate; try lia.
  intros H Hlt. apply andb_true_iff in H. destruct H as [Hv Hr].
  destruct i as [|i]; [exact Hv|].
  apply (IH r i Hr). lia.
Qed.

Lemma FirstOccurrences_Distinct (seen rs out : list row) :
  FirstOccurrences seen rs out ->
  (forall e s, In e out -> In s seen -> row_eqb e s = false) /\ Distinct out.
Proof.
  induction 1 as [seen|seen r rs out _ _ [IHs IHd]|seen r rs out Hno _ [IHs IHd]].
  - split; [intros e s []|constructor].
  - split; [|assumption]. intros e s He Hs. apply IHs; [assumption|].
    apply in_or_app. left. assumption.
  - split.
    + intros e s [<-|He] Hs; [apply Hno; assumption|].
      apply IHs; [assumption|]. apply in_or_app. left. assumption.
    + constructor; [|assumption]. intros e He. rewrite row_eqb_sym.
      apply IHs; [assumption|]. apply in_or_app. right. left. reflexivity.
Qed.

Lemma Subseq_Distinct (l1 l2 : list row) :
  Subseq l1 l2 -> Distinct l2 -> Distinct l1.
Proof.
  induction 1 as [|x l1 l2 Hsub IH|x l1 l2 Hsub IH]; intros Hd.
  - constructor.
  - inversion Hd; subst. apply IH. assumption.
  - inversion Hd; subst. constructor; [|apply IH; assumption].
    intros e He. apply H1. eapply Subseq_In; eassumption.
Qed.

Lemma filter_Subseq (A : Type) (p : A -> bool) (l : list A) : Subseq (filter p l) l.
Proof. rewrite <- select_map_filter. apply select_Subseq. Qed.

Lemma Ok_pair_inv (A B : Type) (a a' : A) (b b' : B) :
  Ok (a, b) = Ok (a', b') -> a = a' /\ b = b'.
Proof. intros H. injection H as -> ->. split; reflexivity. Qed.

Section CleanTable.

Variable parse_number : string -> option Q.
Variables (input clean : DataFrame) (rep : report).

Hypothesis Hwf : well_formed input.
Hypothesis Hclean : clean_pipeline parse_number input = Ok (clean, rep).

Local Abbreviation coerce := (coerce parse_number).
Local Abbreviation cols := (columns input).
Local Abbreviation nlocs := (get_indexer numeric_columns (columns input)).
Local Abbreviation clocs := (get_indexer categorical_columns (columns input)).
Local Abbreviation d2 := (dropna (drop_duplicates input)).
Local Abbreviation d3 := (coerce_columns parse_number numeric_columns d2).
Local Abbreviation kept :=
  (filter (fun r => negb (invalid_row parse_number nlocs r)) (rows d2)).

Lemma clean_numeric_present :
  forallb (fun c => in_columns c input) numeric_columns = true.
Proof.
  pose proof Hclean as H. rewrite clean_pipeline_spec in H. cbv zeta in H.
  destruct (forallb (fun c => in_columns c input) numeric_columns);
    [reflexivity|discriminate].
Qed.

Lemma clean_all_object : all_object categorical_columns (columns d3) = true.
Proof.
  pose proof Hclean as H. rewrite clean_pipeline_spec in H. cbv zeta in H.
  rewrite clean_numeric_present in H.
  destruct (all_object categorical_columns (columns d3));
    [reflexivity|discriminate].
Qed.

Lemma clean_names : map fst (columns d3) = map fst cols.
Proof.
  destruct (coerce_columns_spec parse_number numeric_columns d2) as [H _].
  exact H.
Qed.

Lemma clean_columns : columns clean = columns d3.
Proof.
  pose proof Hclean as H. rewrite clean_pipeline_spec in H. cbv zeta in H.
  rewrite clean_numeric_present, clean_all_object in H.
  apply Ok_pair_inv in H. destruct H as [H _]. rewrite <- H. reflexivity.
Qed.

Lemma clean_get_loc (c : string) : get_loc c (columns clean) = get_loc c cols.
Proof. rewrite clean_columns. apply get_loc_names. apply clean_names. Qed.

Lemma clean_rows : rows clean = map (clean_row parse_number cols) kept.
Proof.
  pose proof Hclean as H. rewrite clean_pipeline_spec in H. cbv zeta in H.
  rewrite clean_numeric_present, clean_all_object in H.
  apply Ok_pair_inv in H. destruct H as [H _]. rewrite <- H. cbn [rows].
  destruct (coerce_columns_spec parse_number numeric_columns d2) as [_ [Hrows _]].
  change (columns d2) with cols in Hrows. rewrite Hrows.
  rewrite filter_map_commute, map_map. unfold clean_row. f_equal.
  apply filter_ext. intros r. apply valid_after_coercion.
Qed.

Lemma clean_report :
  rep = mkReport (Z.of_nat (count_true (duplicated (rows input))))
                 (Z.of_nat (missing_cells (rows (drop_duplicates input))))
                 (Z.of_nat (List.length (filter (invalid_row parse_number nlocs) (rows d2)))).
Proof.
  pose proof Hclean as H. rewrite clean_pipeline_spec in H. cbv zeta in H.
  rewrite clean_numeric_present, clean_all_object in H.
  apply Ok_pair_inv in H. destruct H as [_ H]. rewrite <- H. f_equal.
  - unfold len. rewrite drop_duplicates_rows.
    pose proof (select_negb_length (duplicated (rows input)) row (rows input)
                  (duplicated_from_length [] (rows input))).
    lia.
  - f_equal. unfold isnull_sum_sum, isnull_sum, column_values.
    apply missing_by_column.
    pose proof (well_formed_lengths input Hwf) as Hlen.
    rewrite Forall_forall in *. intros r Hr. apply Hlen.
    eapply Subseq_In; [apply select_Subseq|exact Hr].
  - destruct (coerce_columns_spec parse_number numeric_columns d2) as [_ [Hrows _]].
    change (columns d2) with cols in Hrows. unfold len. rewrite Hrows.
    rewrite filter_map_commute, !length_map.
    rewrite (filter_ext _ (fun r => negb (invalid_row parse_number nlocs r)))
      by (intros r; apply valid_after_coercion).
    pose proof (filter_split_length _ (invalid_row parse_number nlocs) (rows d2)).
    lia.
Qed.

Lemma kept_Subseq : Subseq kept (rows input).
Proof.
  eapply Subseq_trans; [apply filter_Subseq|].
  eapply Subseq_trans; apply select_Subseq.
Qed.

Lemma kept_Distinct : Distinct kept.
Proof.
  apply (Subseq_Distinct kept (rows (drop_duplicates input))).
  - eapply Subseq_trans; [apply filter_Subseq|apply select_Subseq].
  - apply (FirstOccurrences_Distinct [] (rows input)).
    apply duplicated_from_FirstOccurrences.
Qed.

(** The raw row behind a row that was kept. *)
Lemma kept_row (r : row) :
  In r kept ->
  row_fits cols r = true /\ forallb notnull r = true /\
  invalid_row parse_number nlocs r = false.
Proof.
  intros H. apply filter_In in H. destruct H as [Hr2 Hvalid].
  apply negb_true_iff in Hvalid.
  cbn [rows dropna] in Hr2. rewrite select_map_filter in Hr2.
  apply filter_In in Hr2. destruct Hr2 as [Hr1 Hcomplete].
  split; [|split; assumption].
  destruct Hwf as [_ Hfits]. rewrite Forall_forall in Hfits. apply Hfits.
  eapply Subseq_In; [apply select_Subseq|exact Hr1].
Qed.

Lemma categorical_dtype (c : string) (i : nat) :
  In c categorical_columns -> get_loc c cols = Some i ->
  dtype_at i cols = object.
Proof.
  intros Hc Hloc.
  assert (Hi : In i clocs) by (apply In_get_indexer; exists c; auto).
  pose proof clean_all_object as Hall. unfold all_object in Hall.
  rewrite forallb_forall in Hall. specialize (Hall c Hc).
  rewrite (get_loc_names c _ _ clean_names), Hloc in Hall.
  destruct (coerce_columns_spec parse_number numeric_columns d2) as [_ [_ Hd]].
  unfold dtype_at in *. rewrite Hd in Hall.
  - change (columns d2) with cols in Hall.
    destruct (snd (nth i cols ("", object))); [discriminate|reflexivity].
  - change (columns d2) with cols. intros Hn.
    exact (numeric_categorical_disjoint cols i Hn Hi).
Qed.

Lemma numeric_dtype (i : nat) : In i nlocs -> dtype_at i (columns clean) = numeric.
Proof.
  intros Hi. rewrite clean_columns.
  apply coerce_columns_dtype. exact Hi.
Qed.

(** The cells of a clean row, position by position. *)
Lemma clean_cell_categorical (r : row) (i : nat) :
  In r kept -> In i clocs ->
  trimmed_lower (cell i (clean_row parse_number cols r)).
Proof.
  intros Hr Hi. destruct (kept_row r Hr) as [Hfits [Hcomplete _]].
  unfold clean_row.
  rewrite cell_upd_all_strict by auto using norm_cell_idempotent.
  rewrite cell_upd_all_other
    by (intros Hn; exact (numeric_categorical_disjoint cols i Hn Hi)).
  apply In_get_indexer in Hi. destruct Hi as [c [Hc Hloc]].
  destruct (get_loc_Some _ _ _ Hloc) as [Hlt _].
  pose proof (row_fits_cell cols r i Hfits Hlt) as Hfit.
  rewrite (categorical_dtype c i Hc Hloc) in Hfit.
  assert (Hnn : notnull (cell i r) = true).
  { rewrite forallb_forall in Hcomplete. apply Hcomplete.
    apply nth_In. rewrite (row_fits_length cols r Hfits). assumption. }
  destruct (cell i r) as [|s|q]; try discriminate.
  apply norm_cell_trimmed_lower.
Qed.

Lemma clean_cell_numeric (r : row) (i : nat) :
  In r kept -> In i nlocs ->
  exists q, cell i (clean_row parse_number cols r) = Num q.
Proof.
  intros Hr Hi. destruct (kept_row r Hr) as [_ [_ Hvalid]].
  unfold clean_row.
  rewrite cell_upd_all_other
    by (intros Hc; exact (numeric_categorical_disjoint cols i Hi Hc)).
  rewrite cell_upd_all_strict by auto using coerce_idempotent.
  unfold invalid_row in Hvalid.
  assert (Hv : invalid_number parse_number (cell i r) = false).
  { destruct (invalid_number parse_number (cell i r)) eqn:E; [|reflexivity].
    assert (existsb (fun j => invalid_number parse_number (cell j r)) nlocs = true)
      by (apply existsb_exists; exists i; auto).
    congruence. }
  destruct (cell i r) as [|s|q]; simpl in *; try discriminate.
  - destruct (parse_number s) as [q|]; [exists q; reflexivity|discriminate].
  - exists q. reflexivity.
Qed.

Lemma clean_row_length (r : row) :
  In r kept -> List.length (clean_row parse_number cols r) = List.length (columns clean).
Proof.
  intros Hr. destruct (kept_row r Hr) as [Hfits _].
  unfold clean_row. rewrite !upd_all_length, (row_fits_length cols r Hfits).
  rewrite <- (length_map fst cols), <- clean_names, length_map, clean_columns.
  reflexivity.
Qed.

Lemma clean_row_complete (r : row) :
  In r kept -> ~ In NaN (clean_row parse_number cols r).
Proof.
  intros Hr Hin. destruct (kept_row r Hr) as [Hfits [Hcomplete _]].
  apply (In_nth _ _ NaN) in Hin. destruct Hin as [i [Hlt Hnan]].
  fold (cell i (clean_row parse_number cols r)) in Hnan.
  destruct (in_dec Nat.eq_dec i clocs) as [Hc|Hc].
  - destruct (clean_cell_categorical r i Hr Hc) as [s [Hs _]]. congruence.
  - destruct (in_dec Nat.eq_dec i nlocs) as [Hn|Hn].
    + destruct (clean_cell_numeric r i Hr Hn) as [q Hq]. congruence.
    + unfold clean_row in Hnan, Hlt.
      rewrite !cell_upd_all_other in Hnan by assumption.
      rewrite !upd_all_length in Hlt.
      rewrite forallb_forall in Hcomplete.
      specialize (Hcomplete (cell i r) (nth_In _ _ Hlt)).
      rewrite Hnan in Hcomplete. discriminate.
Qed.

End CleanTable.

Lemma pipeline_output_is_clean (parse_number : string -> option Q)
      (input clean : DataFrame) (rep : report) :
  well_formed input ->
  clean_pipeline parse_number input = Ok (clean, rep) ->
  is_clean clean.
Proof.
  intros Hwf Hclean.
  pose proof (clean_names parse_number input) as Hnames.
  pose proof (clean_columns parse_number input clean rep Hclean) as Hcols.
  assert (Hidx : forall labels,
             get_indexer labels (columns clean) = get_indexer labels (columns input))
    by (intros labels; rewrite Hcols; apply get_indexer_names; assumption).
  split; [|split].
  - intros c Hc.
    pose proof (clean_numeric_present parse_number input clean rep Hclean) as Hall.
    rewrite forallb_forall in Hall. specialize (Hall c Hc).
    unfold in_columns in Hall.
    destruct (get_loc c (columns input)) as [j|] eqn:Hloc; [|discriminate].
    exists j. split.
    + rewrite (clean_get_loc parse_number input clean rep Hclean). assumption.
    + apply (numeric_dtype parse_number input clean rep Hclean).
      apply In_get_indexer. exists c. auto.
  - intros c j Hc Hloc.
    pose proof (clean_all_object parse_number input clean rep Hclean) as Hall.
    rewrite <- Hcols in Hall. unfold all_object in Hall.
    rewrite forallb_forall in Hall. specialize (Hall c Hc). rewrite Hloc in Hall.
    destruct (dtype_at j (columns clean)); [discriminate|reflexivity].
  - rewrite Forall_forall. intros r Hr.
    rewrite (clean_rows parse_number input clean rep Hclean) in Hr.
    apply in_map_iff in Hr. destruct Hr as [r0 [<- Hr0]].
    split; [|split; [|split]].
    + eapply clean_row_length; eassumption.
    + eapply clean_row_complete; eassumption.
    + intros j Hj. rewrite Hidx in Hj.
      eapply clean_cell_numeric; eassumption.
    + intros j Hj. rewrite Hidx in Hj.
      eapply clean_cell_categorical; eassumption.
Qed.

Ltac solve_well_formed :=
  split; [cbn; repeat constructor; cbn; intuition discriminate
         |repeat constructor].

Lemma lower_char_ascii (c : ascii) :
  (nat_of_ascii (lower_char c) <? 128) = (nat_of_ascii c <? 128).
Proof.
  destruct c as [[] [] [] [] [] [] [] []]; reflexivity.
Qed.

Lemma ascii_string_lower (s : string) : ascii_string (lower s) = ascii_string s.
Proof.
  induction s as [|c s IH]; simpl; [reflexivity|].
  rewrite lower_char_ascii, IH. reflexivity.
Qed.

Lemma ascii_string_lstrip (s : string) :
  ascii_string s = true -> ascii_string (lstrip s) = true.
Proof.
  induction s as [|c s IH]; simpl; [auto|].
  intros H. destruct (is_space c); [|exact H].
  apply andb_true_iff in H. apply IH, H.
Qed.

Lemma ascii_string_rstrip (s : string) :
  ascii_string s = true -> ascii_string (rstrip s) = true.
Proof.
  induction s as [|c s IH]; simpl; [auto|].
  intros H. apply andb_true_iff in H. destruct H as [Hc Hs].
  specialize (IH Hs). destruct (rstrip s) as [|d t].
  - destruct (is_space c); simpl; [reflexivity|]. rewrite Hc. reflexivity.
  - change (ascii_string (String c (String d t)))
      with ((nat_of_ascii c <? 128) && ascii_string (String d t)).
    rewrite Hc, IH. reflexivity.
Qed.

Lemma ascii_value_norm_cell (v : value) :
  ascii_value v = true -> ascii_value (norm_cell v) = true.
Proof.
  destruct v as [|s|q]; simpl; auto. intros H.
  rewrite ascii_string_lower. unfold strip.
  apply ascii_string_rstrip, ascii_string_lstrip, H.
Qed.

Lemma ascii_value_coerce (parse_number : string -> option Q) (v : value) :
  ascii_value (coerce parse_number v) = true.
Proof.
  destruct v as [|s|q]; simpl; auto. destruct (parse_number s); reflexivity.
Qed.

Lemma forallb_set_nth (A : Type) (p : A -> bool) (j : nat) (v : A) (l : list A) :
  forallb p l = true -> p v = true -> forallb p (set_nth j v l) = true.
Proof.
  revert j. induction l as [|x l IH]; intros [|j] Hl Hv; simpl in *; auto.
  - apply andb_true_iff in Hl. rewrite Hv. apply Hl.
  - apply andb_true_iff in Hl. destruct Hl as [Hx Hl]. rewrite Hx. simpl.
    apply IH; assumption.
Qed.

Lemma forallb_upd_all (p : value -> bool) (f : value -> value)
      (locs : list nat) (r : row) :
  (forall v, p v = true -> p (f v) = true) -> p NaN = true ->
  forallb p r = true -> forallb p (upd_all f locs r) = true.
Proof.
  intros Hf Hnan. revert r. induction locs as [|j locs IH]; intros r Hr; [exact Hr|].
  unfold upd_all in *. cbn [fold_left]. apply IH. unfold upd.
  apply forallb_set_nth; [assumption|]. apply Hf.
  destruct (Nat.lt_ge_cases j (List.length r)) as [Hlt|Hge].
  - rewrite forallb_forall in Hr. apply Hr. apply nth_In. assumption.
  - rewrite (cell_out_of_range j r Hge). assumption.
Qed.

Lemma clean_row_ascii (parse_number : string -> option Q)
      (cols : list (string * dtype)) (r : row) :
  forallb ascii_value r = true ->
  forallb ascii_value (clean_row parse_number cols r) = true.
Proof.
  intros H. unfold clean_row.
  apply forallb_upd_all; [apply ascii_value_norm_cell|reflexivity|].
  apply forallb_upd_all; [|reflexivity|assumption].
  intros v _. apply ascii_value_coerce.
Qed.

(** C2: for a table of ASCII text read from a file, every row of the clean
    table has one cell per column and none missing, numbers in [price],
    [mileage] and [year], and trimmed lower-case text in each categorical
    column that is there; the clean table is ASCII text again, and its rows
    are the images, in input order, of pairwise different input rows under
    coercion and normalisation. *)
Theorem clean_rows_complete_numeric_normalized :
  forall parse_number input clean rep,
    well_formed input ->
    ascii_text input ->
    clean_pipeline parse_number input = Ok (clean, rep) ->
    (exists kept,
        Subseq kept (rows input) /\ Distinct kept /\
        rows clean = map (clean_row parse_number (columns input)) kept) /\
    ascii_text clean /\
    (forall r, In r (rows clean) ->
       List.length r = List.length (columns clean) /\
       ~ In NaN r /\
       (forall c, In c numeric_columns ->
          exists j q, get_loc c (columns clean) = Some j /\ cell j r = Num q) /\
       (forall c j, In c categorical_columns ->
          get_loc c (columns clean) = Some j -> trimmed_lower (cell j r))).
Proof.
  intros parse_number input clean rep Hwf Hascii Hclean. split; [|split].
  - eexists. split; [apply (kept_Subseq parse_number)|].
    split; [apply (kept_Distinct parse_number)|].
    apply (clean_rows parse_number input clean rep Hclean).
  - unfold ascii_text in *. rewrite Forall_forall in *. intros r Hr.
    rewrite (clean_rows parse_number input clean rep Hclean) in Hr.
    apply in_map_iff in Hr. destruct Hr as [r0 [<- Hr0]].
    apply clean_row_ascii. apply Hascii.
    eapply Subseq_In; [apply (kept_Subseq parse_number)|exact Hr0].
  - intros r Hr.
    destruct (pipeline_output_is_clean parse_number input clean rep Hwf Hclean)
      as [Hnum [_ Hrows]].
    rewrite Forall_forall in Hrows.
    destruct (Hrows r Hr) as [Hlen [Hnan [Hn Hc]]].
    split; [assumption|]. split; [assumption|]. split.
    + intros c Hin. destruct (Hnum c Hin) as [j [Hloc _]].
      destruct (Hn j) as [q Hq]; [apply In_get_indexer; exists c; auto|].
      exists j, q. auto.
    + intros c j Hin Hloc. apply Hc. apply In_get_indexer. exists c. auto.
Qed.

Lemma clean_rows_complete_numeric_normalized_witness :
  exists clean rep,
    clean_pipeline parse_decimal twin_input = Ok (clean, rep) /\
    forall r, In r (rows clean) -> ~ In NaN r.
Proof.
  eexists. eexists. split; [reflexivity|].
  intros r Hr.
  refine (proj1 (proj2 (proj2 (proj2 (clean_rows_complete_numeric_normalized
                                        parse_decimal twin_input _ _ _ _ eq_refl)) r Hr))).
  - solve_well_formed.
  - repeat constructor.
Defined.

(** The claim C2 as stated fails: the clean table of two listings spelt
    "Civic" and "civic " holds the same row twice. *)
Lemma clean_table_repeats_a_row :
  well_formed twin_input /\
  exists clean rep a b,
    clean_pipeline parse_decimal twin_input = Ok (clean, rep) /\
    nth_error (rows clean) 0 = Some a /\
    nth_error (rows clean) 1 = Some b /\
    row_eqb a b = true.
Proof.
  split; [solve_well_formed|].
  do 4 eexists. split; [reflexivity|].
  split; [reflexivity|]. split; reflexivity.
Qed.

(** ** Running the cleaning block on a clean table *)

Lemma upd_all_fixed (f : value -> value) (locs : list nat) (r : row) :
  (forall j, In j locs -> f (cell j r) = cell j r) -> upd_all f locs r = r.
Proof.
  induction locs as [|j locs IH]; intros H; [reflexivity|].
  unfold upd_all in *. cbn [fold_left].
  assert (Hj : upd j f r = r).
  { unfold upd. rewrite H by (left; reflexivity). apply set_nth_same. }
  rewrite Hj. apply IH. intros k Hk. apply H. right. assumption.
Qed.

Lemma frame_eta (data : DataFrame) : mkDF (columns data) (rows data) = data.
Proof. destruct data; reflexivity. Qed.

Lemma coerce_columns_fixed (parse_number : string -> option Q)
      (labels : list string) (data : DataFrame) :
  (forall c j, In c labels -> get_loc c (columns data) = Some j ->
     dtype_at j (columns data) = numeric /\
     forall r, In r (rows data) -> coerce parse_number (cell j r) = cell j r) ->
  coerce_columns parse_number labels data = data.
Proof.
  induction labels as [|l labels IH]; intros H; [reflexivity|].
  unfold coerce_columns. cbn [fold_left].
  assert (Hl : coerce_column parse_number data l = data).
  { destruct (get_loc l (columns data)) as [j|] eqn:Hloc.
    - rewrite (coerce_column_present parse_number data l j Hloc).
      destruct (H l j (or_introl eq_refl) Hloc) as [Hdt Hrows].
      rewrite (set_nth_column_same l numeric (columns data) j Hloc Hdt).
      rewrite (map_ext_in _ (fun r => r)).
      + rewrite map_id. apply frame_eta.
      + intros r Hr. unfold upd. rewrite (Hrows r Hr). apply set_nth_same.
    - apply coerce_column_absent. assumption. }
  rewrite Hl. apply IH. intros c j Hc. apply H. right. assumption.
Qed.

Lemma missing_cells_complete (rs : list row) :
  Forall (fun r => ~ In NaN r) rs -> missing_cells rs = 0.
Proof.
  unfold missing_cells. induction 1 as [|r rs Hr _ IH]; simpl; [reflexivity|].
  rewrite IH. apply forallb_notnull_In in Hr.
  assert (Hz : count_true (map isnull r) = 0).
  { clear IH. unfold count_true. induction r as [|v r IHr]; [reflexivity|].
    simpl in Hr. apply andb_true_iff in Hr. destruct Hr as [Hv Hr].
    simpl. unfold notnull in Hv. apply negb_true_iff in Hv. rewrite Hv.
    apply IHr. assumption. }
  rewrite Hz. reflexivity.
Qed.

Lemma duplicated_from_Distinct (seen rs : list row) :
  (forall e s, In e rs -> In s seen -> row_eqb e s = false) ->
  Distinct rs ->
  select (map negb (duplicated_from seen rs)) rs = rs.
Proof.
  intros Hseen Hd. revert seen Hseen.
  induction Hd as [|r rs Hr _ IH]; intros seen Hseen; [reflexivity|].
  cbn [duplicated_from map select].
  assert (E : existsb (row_eqb r) seen = false).
  { destruct (existsb (row_eqb r) seen) eqn:E; [|reflexivity].
    apply existsb_exists in E. destruct E as [s [Hs Hrs]].
    rewrite (Hseen r s (or_introl eq_refl) Hs) in Hrs. discriminate. }
  rewrite E. cbn [negb]. f_equal. apply IH.
  intros e s He Hs. apply in_app_or in Hs. destruct Hs as [Hs|[<-|[]]].
  - apply Hseen; [right|]; assumption.
  - rewrite row_eqb_sym. apply Hr. assumption.
Qed.

Lemma drop_duplicates_Distinct (data : DataFrame) :
  Distinct (rows data) -> drop_duplicates data = data.
Proof.
  intros Hd. unfold drop_duplicates, duplicated.
  rewrite duplicated_from_Distinct; [apply frame_eta| |assumption].
  intros e s _ [].
Qed.

Lemma drop_duplicates_gives_Distinct (data : DataFrame) :
  Distinct (rows (drop_duplicates data)).
Proof.
  apply (FirstOccurrences_Distinct [] (rows data)).
  apply duplicated_from_FirstOccurrences.
Qed.

Lemma is_clean_rows (data : DataFrame) (rs : list row) :
  is_clean data -> (forall r, In r rs -> In r (rows data)) ->
  is_clean (mkDF (columns data) rs).
Proof.
  intros [Hn [Hc Hrows]] Hsub. split; [exact Hn|]. split; [exact Hc|].
  cbn [columns rows]. rewrite Forall_forall in *.
  intros r Hr. apply Hrows, Hsub, Hr.
Qed.

Lemma clean_pipeline_on_clean (parse_number : string -> option Q) (data : DataFrame) :
  is_clean data ->
  clean_pipeline parse_number data =
  Ok (drop_duplicates data,
      mkReport (Z.of_nat (count_true (duplicated (rows data)))) 0 0).
Proof.
  intros Hclean.
  assert (Hclean1 : is_clean (drop_duplicates data)).
  { apply is_clean_rows; [assumption|].
    intros r Hr. eapply Subseq_In; [apply select_Subseq|exact Hr]. }
  destruct Hclean as [Hnum _].
  destruct Hclean1 as [Hnum1 [Hcat1 Hrows1]].
  set (d1 := drop_duplicates data) in *.
  rewrite Forall_forall in Hrows1.
  assert (Hd2 : dropna d1 = d1).
  { unfold dropna. rewrite select_map_filter, filter_all; [apply frame_eta|].
    apply forallb_forall. intros r Hr. apply forallb_notnull_In.
    apply (Hrows1 r Hr). }
  assert (Hd3 : coerce_columns parse_number numeric_columns d1 = d1).
  { apply coerce_columns_fixed. intros c j Hc Hloc.
    destruct (Hnum1 c Hc) as [j' [Hloc' Hdt]].
    assert (j' = j) by congruence. subst j'. split; [assumption|].
    intros r Hr. destruct (Hrows1 r Hr) as [_ [_ [Hn _]]].
    destruct (Hn j) as [q Hq]; [apply In_get_indexer; exists c; auto|].
    rewrite Hq. reflexivity. }
  rewrite clean_pipeline_spec. cbv zeta. fold d1. rewrite Hd2, Hd3.
  assert (Hpresent : forallb (fun c => in_columns c data) numeric_columns = true).
  { apply forallb_forall. intros c Hc. destruct (Hnum c Hc) as [j [Hloc _]].
    unfold in_columns. rewrite Hloc. reflexivity. }
  rewrite Hpresent.
  assert (Hobj : all_object categorical_columns (columns d1) = true).
  { apply forallb_forall. intros c Hc.
    destruct (get_loc c (columns d1)) as [j|] eqn:Hloc; [|reflexivity].
    rewrite (Hcat1 c j Hc Hloc). reflexivity. }
  rewrite Hobj.
  change (columns d1) with (columns data) in *.
  assert (Hrows4 : filter (fun r => forallb (fun j => notnull (cell j r))
                                      (get_indexer numeric_columns (columns data)))
                          (rows d1) = rows d1).
  { apply filter_all. apply forallb_forall. intros r Hr.
    apply forallb_forall. intros j Hj.
    destruct (Hrows1 r Hr) as [_ [_ [Hn _]]]. destruct (Hn j Hj) as [q Hq].
    rewrite Hq. reflexivity. }
  rewrite Hrows4.
  assert (Hnorm : map (upd_all norm_cell (get_indexer categorical_columns (columns data)))
                      (rows d1) = rows d1).
  { rewrite (map_ext_in _ (fun r => r)); [apply map_id|].
    intros r Hr. apply upd_all_fixed. intros j Hj.
    destruct (Hrows1 r Hr) as [_ [_ [_ Hc]]].
    apply trimmed_lower_fixed. apply Hc. assumption. }
  rewrite Hnorm.
  assert (Hmissing : isnull_sum_sum d1 = 0).
  { unfold isnull_sum_sum, isnull_sum, column_values.
    rewrite (missing_by_column (List.length (columns d1)) (rows d1)).
    - apply missing_cells_complete. apply Forall_forall. intros r Hr.
      apply (Hrows1 r Hr).
    - apply Forall_forall. intros r Hr. apply (Hrows1 r Hr). }
  rewrite Hmissing.
  change (mkDF (columns data) (rows d1)) with (mkDF (columns d1) (rows d1)).
  rewrite frame_eta. do 3 f_equal.
  - unfold len, d1. rewrite drop_duplicates_rows.
    pose proof (select_negb_length (duplicated (rows data)) row (rows data)
                  (duplicated_from_length [] (rows data))).
    lia.
  - unfold len. lia.
Qed.

Lemma Distinct_no_duplicates (rs : list row) :
  Distinct rs -> count_true (duplicated rs) = 0.
Proof.
  intros Hd.
  pose proof (select_negb_length (duplicated rs) row rs
                (duplicated_from_length [] rs)) as Hlen.
  unfold duplicated in *. rewrite duplicated_from_Distinct in Hlen.
  - lia.
  - intros e s _ [].
  - assumption.
Qed.

(** C7: on the clean table of a table read from a file, the cleaning
    block raises no error, finds no missing value and no invalid row, and
    returns the table with its repeated rows removed; a clean table whose
    rows are pairwise different comes back unchanged, and so does the
    result of the second run when the block is run a third time. *)
Theorem clean_pipeline_again_only_deduplicates :
  forall parse_number input clean rep,
    well_formed input ->
    clean_pipeline parse_number input = Ok (clean, rep) ->
    clean_pipeline parse_number clean =
      Ok (drop_duplicates clean,
          mkReport (Z.of_nat (count_true (duplicated (rows clean)))) 0 0) /\
    (Distinct (rows clean) ->
       clean_pipeline parse_number clean = Ok (clean, mkReport 0 0 0)) /\
    clean_pipeline parse_number (drop_duplicates clean) =
      Ok (drop_duplicates clean, mkReport 0 0 0).
Proof.
  intros parse_number input clean rep Hwf Hclean.
  pose proof (pipeline_output_is_clean parse_number input clean rep Hwf Hclean) as Hc.
  split; [apply clean_pipeline_on_clean; assumption|]. split.
  - intros Hd. rewrite (clean_pipeline_on_clean parse_number clean Hc).
    rewrite (drop_duplicates_Distinct clean Hd), (Distinct_no_duplicates _ Hd).
    reflexivity.
  - assert (Hc1 : is_clean (drop_duplicates clean)).
    { apply is_clean_rows; [assumption|].
      intros r Hr. eapply Subseq_In; [apply select_Subseq|exact Hr]. }
    pose proof (drop_duplicates_gives_Distinct clean) as Hd.
    rewrite (clean_pipeline_on_clean parse_number _ Hc1).
    rewrite (drop_duplicates_Distinct _ Hd), (Distinct_no_duplicates _ Hd).
    reflexivity.
Qed.

Lemma clean_pipeline_again_only_deduplicates_witness :
  exists clean rep,
    clean_pipeline parse_decimal twin_input = Ok (clean, rep) /\
    clean_pipeline parse_decimal (drop_duplicates clean) =
      Ok (drop_duplicates clean, mkReport 0 0 0).
Proof.
  eexists. eexists. split; [reflexivity|].
  refine (proj2 (proj2 (clean_pipeline_again_only_deduplicates
                          parse_decimal twin_input _ _ _ eq_refl))).
  solve_well_formed.
Defined.

(** The claim C7 as stated fails: the clean table of the two listings
    spelt "Civic" and "civic " has two rows, and cleaning it again leaves
    one. *)
Lemma clean_pipeline_not_idempotent :
  well_formed twin_input /\
  exists clean rep again rep',
    clean_pipeline parse_decimal twin_input = Ok (clean, rep) /\
    clean_pipeline parse_decimal clean = Ok (again, rep') /\
    len clean = 2 /\ len again = 1 /\ again <> clean.
Proof.
  split; [solve_well_formed|].
  do 4 eexists. split; [vm_compute; reflexivity|].
  split; [vm_compute; reflexivity|].
  split; [reflexivity|]. split; [reflexivity|].
  intros H. apply (f_equal len) in H. vm_compute in H. discriminate H.
Qed.

(** ** Statistics of an empty table *)

Lemma getitem_empty (data : DataFrame) (name : string) :
  rows data = [] ->
  (exists dt, getitem data name = Ok (dt, [])) \/
  getitem data name = Raise (KeyError [name]).
Proof.
  intros Hrows. unfold getitem, column_values. rewrite Hrows.
  destruct (get_loc name (columns data)); [left; eexists|right]; reflexivity.
Qed.

Lemma statistics_empty (data : DataFrame) :
  rows data = [] ->
  statistics data =
  if in_columns "price" data && in_columns "mileage" data && in_columns "year" data
  then Raise ValueError
  else Raise (KeyError [if negb (in_columns "price" data) then "price"
                        else if negb (in_columns "mileage" data) then "mileage"
                        else "year"]).
Proof.
  intros Hrows. unfold statistics, in_columns, getitem, column_values.
  rewrite Hrows.
  destruct (get_loc "price" (columns data)); [|reflexivity].
  destruct (get_loc "mileage" (columns data)); [|reflexivity].
  destruct (get_loc "year" (columns data)); reflexivity.
Qed.

(** C8: on a table without rows the statistics block raises an error; on
    an empty clean table the means are NaN and the error is the
    [ValueError] of [int(nan)], which nothing catches: the run stops. *)
Theorem statistics_fails_on_empty_table :
  (forall data, rows data = [] -> exists e, statistics data = Raise e) /\
  (forall parse_number input clean rep,
      clean_pipeline parse_number input = Ok (clean, rep) ->
      rows clean = [] ->
      (forall dt j, series_mean (dt, column_values j clean) = Ok NaN /\
                    series_min (dt, column_values j clean) = Ok NaN /\
                    series_max (dt, column_values j clean) = Ok NaN) /\
      statistics clean = Raise ValueError /\
      program parse_number input = Raise ValueError).
Proof.
  split.
  - intros data Hrows. rewrite (statistics_empty data Hrows).
    destruct (in_columns "price" data && in_columns "mileage" data
              && in_columns "year" data); eexists; reflexivity.
  - intros parse_number input clean rep Hclean Hrows.
    assert (Hstat : statistics clean = Raise ValueError).
    { rewrite (statistics_empty clean Hrows).
      pose proof (clean_numeric_present parse_number input clean rep Hclean) as Hall.
      unfold in_columns.
      rewrite !(clean_get_loc parse_number input clean rep Hclean).
      unfold numeric_columns in Hall. cbn [forallb] in Hall.
      unfold in_columns in Hall.
      destruct (get_loc "price" (columns input)); [|discriminate].
      destruct (get_loc "mileage" (columns input)); [|discriminate].
      destruct (get_loc "year" (columns input)); [reflexivity|discriminate]. }
    split; [|split].
    + intros dt j. unfold column_values. rewrite Hrows.
      split; [|split]; reflexivity.
    + exact Hstat.
    + unfold program. rewrite Hclean. cbn [bind fst]. rewrite Hstat. reflexivity.
Qed.

Lemma statistics_fails_on_empty_table_witness :
  program parse_decimal unparseable_input = Raise ValueError.
Proof.
  refine (proj2 (proj2 (proj2 statistics_fails_on_empty_table
                          parse_decimal unparseable_input _ _ eq_refl eq_refl))).
Defined.

(** ** Insertion sort *)

Lemma insert_by_Permutation (A : Type) (le : A -> A -> bool) (x : A) (l : list A) :
  Permutation (insert_by le x l) (x :: l).
Proof.
  induction l as [|y l IH]; simpl; [reflexivity|].
  destruct (le x y); [reflexivity|].
  rewrite IH. apply perm_swap.
Qed.

Lemma sort_by_Permutation (A : Type) (le : A -> A -> bool) (l : list A) :
  Permutation (sort_by le l) l.
Proof.
  induction l as [|x l IH]; simpl; [reflexivity|].
  rewrite insert_by_Permutation. apply perm_skip. assumption.
Qed.

Section Sorting.

Variable A : Type.
Variable le : A -> A -> bool.
Variable P : A -> Prop.

Hypothesis le_total : forall a b, P a -> P b -> le a b = true \/ le b a = true.
Hypothesis le_trans :
  forall a b c, P a -> P b -> P c -> le a b = true -> le b c = true -> le a c = true.

Local Abbreviation Le := (fun a b => le a b = true).

Lemma insert_by_sorted (x : A) (l : list A) :
  P x -> Forall P l -> StronglySorted Le l -> StronglySorted Le (insert_by le x l).
Proof.
  intros Hx Hl Hs. induction Hs as [|y l Hs IH Hy]; simpl.
  - repeat constructor.
  - inversion Hl as [|y' l' Py Pl]; subst.
    destruct (le x y) eqn:E.
    + constructor; [constructor; assumption|].
      constructor; [assumption|].
      rewrite Forall_forall in *. intros z Hz.
      apply (le_trans x y z); auto.
    + constructor; [apply IH; assumption|].
      rewrite Forall_forall in *. intros z Hz.
      apply (Permutation_in _ (insert_by_Permutation A le x l)) in Hz.
      destruct Hz as [<-|Hz]; [|apply Hy; assumption].
      destruct (le_total x y Hx Py) as [H|H]; [congruence|assumption].
Qed.

Lemma sort_by_sorted (l : list A) :
  Forall P l -> StronglySorted Le (sort_by le l).
Proof.
  induction 1 as [|x l Hx Hl IH]; simpl; [constructor|].
  apply insert_by_sorted; [assumption| |assumption].
  rewrite Forall_forall in *. intros z Hz. apply Hl.
  apply (Permutation_in _ (sort_by_Permutation A le l)). assumption.
Qed.

End Sorting.



(** ** Distinct values and their counts *)



Lemma count_value_Permutation (v : value) (l1 l2 : list value) :
  Permutation l1 l2 -> count_value v l1 = count_value v l2.
Proof.
  intros H. unfold count_value. apply Permutation_length.
  induction H; simpl.
  - constructor.
  - destruct (value_eqb v x); [constructor|]; assumption.
  - destruct (value_eqb v x), (value_eqb v y); try reflexivity. apply perm_swap.
  - etransitivity; eassumption.
Qed.


Lemma unique_In (v : value) (l : list value) : In v (unique l) -> In v l.
Proof.
  induction l as [|x l IH]; simpl; [auto|].
  intros [H|H]; [left; assumption|]. right. apply IH.
  apply filter_In in H. apply H.
Qed.

Lemma unique_covers (w : value) (l : list value) :
  In w l -> exists u, In u (unique l) /\ value_eqb u w = true.
Proof.
  induction l as [|x l IH]; simpl; [contradiction|].
  intros [->|H].
  - exists w. split; [left; reflexivity|apply value_eqb_refl].
  - destruct (value_eqb x w) eqn:E.
    + exists x. split; [left; reflexivity|assumption].
    + destruct (IH H) as [u [Hu Huw]]. exists u. split; [|assumption].
      right. apply filter_In. split; [assumption|].
      destruct (value_eqb x u) eqn:E'; [|reflexivity].
      rewrite (value_eqb_trans x u w E' Huw) in E. discriminate.
Qed.

Lemma unique_count (v : value) (l : list value) : count_value v (unique l) <= 1.
Proof.
  induction l as [|x l IH]; simpl; [unfold count_value; simpl; lia|].
  unfold count_value in *. simpl.
  assert (Hle : List.length (filter (value_eqb v)
                  (filter (fun w => negb (value_eqb x w)) (unique l))) <=
                List.length (filter (value_eqb v) (unique l))).
  { generalize (unique l). intros m. induction m as [|y m IHm]; simpl; [lia|].
    destruct (value_eqb x y); simpl; destruct (value_eqb v y); simpl; lia. }
  destruct (value_eqb v x) eqn:E; [|lia].
  simpl. rewrite (proj2 (List.length_zero_iff_nil _)); [lia|].
  generalize (unique l). intros m. induction m as [|y m IHm]; simpl; [reflexivity|].
  destruct (value_eqb x y) eqn:Exy; simpl; [assumption|].
  destruct (value_eqb v y) eqn:Evy; [|assumption].
  rewrite value_eqb_sym in E.
  rewrite (value_eqb_trans x v y E Evy) in Exy. discriminate.
Qed.

(** ** The charts of the most frequent values *)


Lemma value_counts_Permutation (s : Series) :
  Permutation (value_counts s)
              (map (fun v => (v, count_value v (filter notnull (snd s))))
                   (unique (filter notnull (snd s)))).
Proof. apply sort_by_Permutation. Qed.

Lemma value_counts_keys (s : Series) :
  Permutation (map fst (value_counts s)) (unique (filter notnull (snd s))).
Proof.
  rewrite (value_counts_Permutation s), map_map. simpl. rewrite map_id. reflexivity.
Qed.







(** ** Column assignment leaves the other columns alone *)

Lemma mapM_length (A B : Type) (f : A -> result B) (l : list A) (out : list B) :
  mapM f l = Ok out -> List.length out = List.length l.
Proof.
  revert out. induction l as [|x l IH]; simpl; intros out H.
  - injection H as <-. reflexivity.
  - destruct (f x) as [y|]; [|discriminate]. cbn [bind] in H.
    destruct (mapM f l) as [ys|]; [|discriminate]. cbn [bind] in H.
    injection H as <-. simpl. f_equal. apply IH. reflexivity.
Qed.

Lemma div_numbers (d : Q) (vals : list value) :
  forallb is_num vals = true ->
  exists out, mapM (fun v => div_scalar v d) vals = Ok out /\
              forallb is_num out = true.
Proof.
  induction vals as [|v vals IH]; simpl; intros H.
  - exists []. split; reflexivity.
  - apply andb_true_iff in H. destruct H as [Hv H].
    destruct (IH H) as [out [Hout Hnum]].
    destruct v as [|s|q]; try discriminate. simpl. rewrite Hout. cbn [bind].
    eexists. split; [reflexivity|]. simpl. assumption.
Qed.

Lemma get_loc_app (name : string) (cols extra : list (string * dtype)) (j : nat) :
  get_loc name cols = Some j -> get_loc name (cols ++ extra) = Some j.
Proof.
  revert j. induction cols as [|[c dt] cols IH]; intros j; simpl; [discriminate|].
  destruct (String.eqb c name); [auto|].
  destruct (get_loc name cols) as [k|]; [|discriminate].
  rewrite (IH k eq_refl). auto.
Qed.

Lemma get_loc_app_new (name : string) (cols : list (string * dtype)) (dt : dtype) :
  get_loc name cols = None ->
  get_loc name (cols ++ [(name, dt)]) = Some (List.length cols).
Proof.
  induction cols as [|[c d] cols IH]; simpl.
  - rewrite String.eqb_refl. reflexivity.
  - destruct (String.eqb c name); [discriminate|].
    destruct (get_loc name cols); [discriminate|].
    intros _. rewrite IH by reflexivity. reflexivity.
Qed.

Lemma get_loc_app_other (c name : string) (cols : list (string * dtype)) (dt : dtype) :
  c <> name -> get_loc c cols = None -> get_loc c (cols ++ [(name, dt)]) = None.
Proof.
  intros Hne. induction cols as [|[c' d] cols IH]; simpl.
  - intros _. destruct (String.eqb_spec name c); [congruence|reflexivity].
  - destruct (String.eqb c' c); [discriminate|].
    destruct (get_loc c cols); [discriminate|].
    intros _. rewrite IH by reflexivity. reflexivity.
Qed.

Lemma map_combine_fst (A B C : Type) (g : A -> C) (l : list A) (l' : list B) :
  List.length l' = List.length l ->
  map (fun p => g (fst p)) (combine l l') = map g l.
Proof.
  revert l'. induction l as [|x l IH]; intros [|y l']; simpl; try discriminate; auto.
  intros H. injection H as H. rewrite IH by assumption. reflexivity.
Qed.

Lemma map_combine_snd (A B : Type) (l : list A) (l' : list B) :
  List.length l' = List.length l -> map snd (combine l l') = l'.
Proof.
  revert l'. induction l as [|x l IH]; intros [|y l']; simpl; try discriminate; auto.
  intros H. injection H as H. rewrite IH by assumption. reflexivity.
Qed.

Lemma In_combine_fst (A B : Type) (l : list A) (l' : list B) (p : A * B) :
  In p (combine l l') -> In (fst p) l.
Proof. destruct p as [a b]. apply in_combine_l. Qed.

Lemma cell_app_old (i : nat) (r : row) (v : value) :
  i < List.length r -> cell i (r ++ [v]) = cell i r.
Proof. intros H. unfold cell. apply app_nth1. assumption. Qed.

Lemma cell_app_new (r : row) (v : value) : cell (List.length r) (r ++ [v]) = v.
Proof. unfold cell. rewrite app_nth2, Nat.sub_diag by lia. reflexivity. Qed.

Section Assignment.

Variables (data : DataFrame) (name : string) (dt : dtype) (vals : list value).

Hypothesis Hrect : rectangular data.
Hypothesis Hlen : List.length vals = len data.

Lemma setitem_len : len (setitem data name (dt, vals)) = len data.
Proof.
  unfold setitem, len in *. cbn [fst snd].
  destruct (get_loc name (columns data)); cbn [rows];
    rewrite length_map, length_combine; lia.
Qed.

Lemma setitem_rectangular : rectangular (setitem data name (dt, vals)).
Proof.
  unfold rectangular, setitem in *. cbn [fst snd]. rewrite Forall_forall in *.
  destruct (get_loc name (columns data)) as [j|]; cbn [rows columns];
    intros r Hr; apply in_map_iff in Hr; destruct Hr as [[r0 v] [<- Hin]];
    apply in_combine_l in Hin; cbn [fst snd].
  - rewrite !set_nth_length. apply Hrect. assumption.
  - rewrite !length_app. simpl. rewrite (Hrect r0 Hin). reflexivity.
Qed.

Lemma setitem_getitem_same :
  getitem (setitem data name (dt, vals)) name = Ok (dt, vals).
Proof.
  unfold rectangular, len in *. rewrite Forall_forall in Hrect.
  unfold setitem, getitem, column_values. cbn [fst snd].
  destruct (get_loc name (columns data)) as [j|] eqn:Hloc; cbn [rows columns].
  - destruct (get_loc_Some _ _ _ Hloc) as [Hlt _].
    rewrite (get_loc_names name _ (columns data)), Hloc
      by (apply names_set_nth; assumption).
    rewrite nth_set_nth, Nat.eqb_refl.
    apply Nat.ltb_lt in Hlt. rewrite Hlt. cbn [andb snd]. do 2 f_equal.
    rewrite map_map. rewrite <- (map_combine_snd _ _ (rows data) vals Hlen) at 2.
    apply map_ext_in. intros [r v] Hin. cbn [fst snd].
    unfold cell. rewrite nth_set_nth, Nat.eqb_refl.
    apply in_combine_l in Hin. rewrite (Hrect r Hin), Hlt. reflexivity.
  - rewrite (get_loc_app_new name (columns data) dt Hloc).
    rewrite app_nth2, Nat.sub_diag by lia. cbn [nth snd]. do 2 f_equal.
    rewrite map_map. rewrite <- (map_combine_snd _ _ (rows data) vals Hlen) at 2.
    apply map_ext_in. intros [r v] Hin. cbn [fst snd].
    apply in_combine_l in Hin. rewrite <- (Hrect r Hin). apply cell_app_new.
Qed.

End Assignment.

Lemma setitem_getitem_other (data : DataFrame) (name c : string) (dt : dtype)
      (vals : list value) :
  rectangular data -> List.length vals = len data -> c <> name ->
  getitem (setitem data name (dt, vals)) c = getitem data c.
Proof.
  intros Hrect Hlen Hne. unfold rectangular, len in *.
  rewrite Forall_forall in Hrect.
  unfold setitem, getitem, column_values. cbn [fst snd].
  destruct (get_loc name (columns data)) as [j|] eqn:Hloc; cbn [rows columns].
  - rewrite (get_loc_names c _ (columns data))
      by (apply names_set_nth; assumption).
    destruct (get_loc c (columns data)) as [i|] eqn:Hc; [|reflexivity].
    assert (Hij : i <> j).
    { intros ->. apply get_loc_Some in Hloc, Hc.
      destruct Hloc as [_ Hn], Hc as [_ Hc]. congruence. }
    apply Nat.eqb_neq in Hij.
    rewrite nth_set_nth, Hij. cbn [andb]. do 2 f_equal.
    rewrite map_map.
    rewrite <- (map_combine_fst _ _ _ (cell i) (rows data) vals Hlen).
    apply map_ext. intros [r v]. cbn [fst snd].
    unfold cell. rewrite nth_set_nth, Hij. reflexivity.
  - destruct (get_loc c (columns data)) as [i|] eqn:Hc.
    + rewrite (get_loc_app c (columns data) _ i Hc).
      destruct (get_loc_Some _ _ _ Hc) as [Hlt _].
      rewrite app_nth1 by assumption. do 2 f_equal.
      rewrite map_map.
      rewrite <- (map_combine_fst _ _ _ (cell i) (rows data) vals Hlen).
      apply map_ext_in. intros [r v] Hin. cbn [fst snd].
      apply in_combine_l in Hin. apply cell_app_old.
      rewrite (Hrect r Hin). assumption.
    + rewrite (get_loc_app_other c name (columns data) dt Hne Hc). reflexivity.
Qed.

Lemma same_but_lakhs_refl (data : DataFrame) : same_but_lakhs data data.
Proof. split; reflexivity. Qed.

Lemma same_but_lakhs_trans (d1 d2 d3 : DataFrame) :
  same_but_lakhs d1 d2 -> same_but_lakhs d2 d3 -> same_but_lakhs d1 d3.
Proof.
  intros [Hl12 Hg12] [Hl23 Hg23]. split; [congruence|].
  intros c Hc. rewrite Hg23, Hg12 by assumption. reflexivity.
Qed.

Lemma numbers_column_same (c : string) (before after : DataFrame) :
  c <> "price_in_lakhs" -> same_but_lakhs before after ->
  numbers_column c before -> numbers_column c after.
Proof.
  intros Hc [_ Hg] [dt [vals [Hget Hnum]]]. exists dt, vals.
  rewrite Hg by assumption. auto.
Qed.

Lemma in_columns_getitem (c : string) (data : DataFrame) :
  in_columns c data = match getitem data c with Ok _ => true | Raise _ => false end.
Proof.
  unfold in_columns, getitem. destruct (get_loc c (columns data)); reflexivity.
Qed.

Lemma getitem_length (c : string) (data : DataFrame) (dt : dtype) (vals : list value) :
  getitem data c = Ok (dt, vals) -> List.length vals = len data.
Proof.
  unfold getitem, column_values, len.
  destruct (get_loc c (columns data)); [|discriminate].
  intros H. injection H as _ <-. apply length_map.
Qed.

(** The assignment of the derived column, as both price blocks do it. *)
Lemma assign_lakhs (data : DataFrame) :
  rectangular data -> numbers_column "price" data ->
  exists price lakhs,
    getitem data "price" = Ok price /\
    div_series price lakh = Ok (numeric, lakhs) /\
    forallb is_num lakhs = true /\
    let data' := setitem data "price_in_lakhs" (numeric, lakhs) in
    getitem data' "price_in_lakhs" = Ok (numeric, lakhs) /\
    rectangular data' /\ same_but_lakhs data data'.
Proof.
  intros Hrect [dt [vals [Hget Hnum]]].
  destruct (div_numbers lakh vals Hnum) as [lakhs [Hdiv Hlnum]].
  assert (Hlen : List.length lakhs = len data).
  { rewrite (mapM_length _ _ _ _ _ Hdiv). eapply getitem_length. eassumption. }
  exists (dt, vals), lakhs. split; [assumption|]. split.
  - unfold div_series. cbn [snd]. rewrite Hdiv. reflexivity.
  - split; [assumption|]. cbv zeta. split; [|split; [|split]].
    + apply setitem_getitem_same; assumption.
    + apply setitem_rectangular; assumption.
    + apply setitem_len. assumption.
    + intros c Hc. apply setitem_getitem_other; assumption.
Qed.

(** ** The two charts over the years *)

Lemma value_leb_total_num (a b : value) :
  is_num a = true -> is_num b = true ->
  value_leb a b = true \/ value_leb b a = true.
Proof.
  destruct a as [| |p], b as [| |q]; try discriminate. intros _ _. simpl.
  rewrite !Qle_bool_iff. destruct (Qlt_le_dec p q) as [H|H]; [left|right]; auto.
  apply Qlt_le_weak. assumption.
Qed.

Lemma value_leb_trans_num (a b c : value) :
  is_num a = true -> is_num b = true -> is_num c = true ->
  value_leb a b = true -> value_leb b c = true -> value_leb a c = true.
Proof.
  destruct a as [| |p], b as [| |q], c as [| |r]; try discriminate.
  intros _ _ _. simpl. rewrite !Qle_bool_iff. apply Qle_trans.
Qed.

Lemma count_value_In (x y : value) (l : list value) :
  In y l -> value_eqb x y = true -> 1 <= count_value x l.
Proof.
  unfold count_value. induction l as [|z l IH]; simpl; [contradiction|].
  intros [->|Hin] Hxy.
  - rewrite Hxy. simpl. lia.
  - specialize (IH Hin Hxy). destruct (value_eqb x z); simpl; lia.
Qed.

Lemma sorted_distinct_years (keys : list value) :
  forallb is_num keys = true ->
  StronglySorted (fun a b => value_leb a b = true) keys ->
  (forall v, count_value v keys <= 1) ->
  StronglySorted year_lt keys.
Proof.
  intros Hnum Hs. induction Hs as [|x l Hs IH Hx]; intros Hcount; [constructor|].
  simpl in Hnum. apply andb_true_iff in Hnum. destruct Hnum as [Hxn Hln].
  constructor.
  - apply IH; [assumption|]. intros v. specialize (Hcount v).
    unfold count_value in *. simpl in Hcount.
    destruct (value_eqb v x); simpl in Hcount; lia.
  - rewrite Forall_forall in *. intros y Hy.
    specialize (Hx y Hy). rewrite forallb_forall in Hln. specialize (Hln y Hy).
    destruct x as [| |p]; try discriminate. destruct y as [| |q]; try discriminate.
    simpl in *. apply Qle_bool_iff in Hx. apply Qle_lteq in Hx.
    destruct Hx as [Hlt|Heq]; [assumption|].
    exfalso. specialize (Hcount (Num p)). unfold count_value in Hcount.
    simpl in Hcount. rewrite Qeq_bool_refl in Hcount. simpl in Hcount.
    assert (1 <= count_value (Num p) l) as Hone.
    { apply (count_value_In (Num p) (Num q) l Hy). simpl.
      apply Qeq_bool_iff. assumption. }
    unfold count_value in Hone. lia.
Qed.

Lemma StronglySorted_map (A B : Type) (f : A -> B) (R : B -> B -> Prop) (l : list A) :
  StronglySorted (fun a b => R (f a) (f b)) l -> StronglySorted R (map f l).
Proof.
  induction 1 as [|x l _ IH Hx]; simpl; constructor; [assumption|].
  rewrite Forall_forall in *. intros y Hy. apply in_map_iff in Hy.
  destruct Hy as [z [<- Hz]]. apply Hx. assumption.
Qed.

Lemma forallb_Permutation (A : Type) (p : A -> bool) (l1 l2 : list A) :
  Permutation l1 l2 -> forallb p l1 = true -> forallb p l2 = true.
Proof.
  intros Hperm H. rewrite forallb_forall in *. intros x Hx. apply H.
  apply (Permutation_in _ (Permutation_sym Hperm)). assumption.
Qed.

Lemma unique_num (vals : list value) :
  forallb is_num vals = true -> forallb is_num (unique (filter notnull vals)) = true.
Proof.
  intros H. rewrite forallb_forall in *. intros v Hv. apply H.
  apply unique_In in Hv. apply filter_In in Hv. apply Hv.
Qed.

Lemma comparable_num (keys : list value) :
  forallb is_num keys = true -> comparable keys = true.
Proof.
  intros H. unfold comparable. apply orb_true_iff. left.
  rewrite forallb_forall in *. intros v Hv. apply H.
  apply filter_In in Hv. apply Hv.
Qed.

(** Sorting by a key column whose keys are pairwise different numbers. *)
Lemma sort_by_key_years (B : Type) (l : list (value * B)) :
  forallb is_num (map fst l) = true ->
  (forall v, count_value v (map fst l) <= 1) ->
  exists pts, sort_by_key l = Ok pts /\
              Permutation pts l /\
              StronglySorted year_lt (map fst pts).
Proof.
  intros Hnum Hcount. unfold sort_by_key. rewrite (comparable_num _ Hnum).
  set (le := fun a b : value * B => value_leb (fst a) (fst b)).
  pose proof (sort_by_Permutation _ le l) as Hperm.
  eexists. split; [reflexivity|]. split; [assumption|].
  apply sorted_distinct_years.
  - apply (forallb_Permutation _ _ (map fst l)); [|assumption].
    apply Permutation_map, Permutation_sym. assumption.
  - apply StronglySorted_map.
    apply (sort_by_sorted _ le (fun a => is_num (fst a) = true)).
    + intros a b. apply value_leb_total_num.
    + intros a b c. apply value_leb_trans_num.
    + rewrite forallb_forall in Hnum. apply Forall_forall.
      intros a Ha. apply Hnum. apply in_map. assumption.
  - intros v. rewrite (count_value_Permutation v _ (map fst l)); [apply Hcount|].
    apply Permutation_map. assumption.
Qed.

Lemma year_block_spec (data : DataFrame) (dt : dtype) (years : list value) :
  getitem data "year" = Ok (dt, years) -> forallb is_num years = true ->
  exists pts,
    year_block data = Ok (data, Some (LineCounts pts)) /\
    StronglySorted year_lt (map fst pts) /\
    Permutation (map fst pts) (unique (filter notnull years)) /\
    (forall v c, In (v, c) pts -> c = count_value v (filter notnull years)).
Proof.
  intros Hget Hnum. unfold year_block. rewrite in_columns_getitem, Hget. cbn [bind].
  pose proof (value_counts_keys (dt, years)) as Hkeys. cbn [snd] in Hkeys.
  destruct (sort_by_key_years nat (value_counts (dt, years))) as [pts [Hs [Hperm Hsorted]]].
  - apply (forallb_Permutation _ _ _ _ (Permutation_sym Hkeys)).
    apply unique_num. assumption.
  - intros v. rewrite (count_value_Permutation v _ _ Hkeys). apply unique_count.
  - exists pts. rewrite Hs. cbn [bind]. split; [reflexivity|].
    split; [assumption|]. split.
    + rewrite <- Hkeys. apply Permutation_map. assumption.
    + intros v c Hin. apply (Permutation_in _ Hperm) in Hin.
      apply (Permutation_in _ (value_counts_Permutation (dt, years))) in Hin.
      apply in_map_iff in Hin. destruct Hin as [u [Heq _]].
      cbn [snd] in Heq. injection Heq as <- <-. reflexivity.
Qed.

Lemma mapM_total (A B : Type) (f : A -> result B) (l : list A) (R : A -> B -> Prop) :
  (forall x, In x l -> exists y, f x = Ok y /\ R x y) ->
  exists out, mapM f l = Ok out /\ Forall2 R l out.
Proof.
  induction l as [|x l IH]; intros H.
  - exists []. split; [reflexivity|constructor].
  - destruct (H x (or_introl eq_refl)) as [y [Hy HR]].
    destruct IH as [out [Hout Hall]]; [intros z Hz; apply H; right; assumption|].
    exists (y :: out). simpl. rewrite Hy, Hout. split; [reflexivity|].
    constructor; assumption.
Qed.

Lemma Forall2_keys (B C : Type) (R : value * B -> value * C -> Prop)
      (l : list (value * B)) (out : list (value * C)) :
  (forall x y, R x y -> fst y = fst x) -> Forall2 R l out -> map fst out = map fst l.
Proof.
  intros HR. induction 1 as [|x y l out Hxy _ IH]; simpl; [reflexivity|].
  rewrite (HR x y Hxy), IH. reflexivity.
Qed.

Lemma Forall2_right (A B : Type) (R : A -> B -> Prop) (P : B -> Prop)
      (l : list A) (out : list B) :
  (forall x y, R x y -> P y) -> Forall2 R l out -> Forall P out.
Proof.
  intros HR. induction 1 as [|x y l out Hxy _ IH]; constructor; eauto.
Qed.

Lemma numbers_of_total (vals : list value) :
  forallb is_num vals = true -> exists qs, numbers_of vals = Ok qs.
Proof.
  induction vals as [|v vals IH]; simpl; intros H; [eexists; reflexivity|].
  apply andb_true_iff in H. destruct H as [Hv H].
  destruct (IH H) as [qs Hqs]. destruct v as [| |q]; try discriminate.
  rewrite Hqs. eexists. reflexivity.
Qed.

Lemma series_mean_numbers (dt : dtype) (vals : list value) :
  forallb is_num vals = true ->
  exists m, series_mean (dt, vals) = Ok m /\ is_str m = false.
Proof.
  intros H. destruct (numbers_of_total vals H) as [qs Hqs].
  unfold series_mean. cbn [snd]. rewrite Hqs. cbn [bind].
  destruct qs; eexists; split; reflexivity.
Qed.

Lemma div_scalar_total (v : value) (d : Q) :
  is_str v = false -> exists y, div_scalar v d = Ok y.
Proof. destruct v; try discriminate; intros _; eexists; reflexivity. Qed.

Lemma avg_price_block_spec (data : DataFrame) (dty dtp : dtype) (years prices : list value) :
  getitem data "year" = Ok (dty, years) -> forallb is_num years = true ->
  getitem data "price" = Ok (dtp, prices) -> forallb is_num prices = true ->
  exists pts,
    avg_price_block data = Ok (data, Some (LineValues pts)) /\
    StronglySorted year_lt (map fst pts) /\
    Permutation (map fst pts) (unique (filter notnull years)).
Proof.
  intros Hy Hyn Hp Hpn. unfold avg_price_block.
  rewrite !in_columns_getitem, Hy, Hp. cbn [andb bind].
  unfold groupby_mean. cbn [fst snd].
  set (keys := unique (filter notnull years)).
  assert (Hkeys : map fst (map (fun k : value => (k, tt)) keys) = keys)
    by (rewrite map_map; apply map_id).
  destruct (sort_by_key_years unit (map (fun k => (k, tt)) keys))
    as [ks [Hks [Hperm Hsorted]]].
  - rewrite Hkeys. apply unique_num. assumption.
  - intros v. rewrite Hkeys. apply unique_count.
  - rewrite Hks. cbn [bind].
    destruct (mapM_total _ _
                (fun k : value * unit =>
                   m <- series_mean
                          (dtp, map snd (filter (fun kv => value_eqb (fst k) (fst kv))
                                                (combine years prices))) ;;
                   Ok (fst k, m))
                ks (fun k kv => fst kv = fst k /\ is_str (snd kv) = false))
      as [avg [Havg Hall]].
    { intros k _.
      destruct (series_mean_numbers dtp
                  (map snd (filter (fun kv => value_eqb (fst k) (fst kv))
                                   (combine years prices)))) as [m [Hm Hstr]].
      - apply forallb_forall. intros v Hv. apply in_map_iff in Hv.
        destruct Hv as [[y p] [<- Hin]]. apply filter_In in Hin.
        destruct Hin as [Hin _]. apply in_combine_r in Hin.
        rewrite forallb_forall in Hpn. apply Hpn. assumption.
      - rewrite Hm. eexists. split; [reflexivity|]. split; [reflexivity|assumption]. }
    rewrite Havg. cbn [bind].
    destruct (mapM_total _ _
                (fun kv : value * value =>
                   y <- div_scalar (snd kv) lakh ;; Ok (fst kv, y))
                avg (fun kv pt => fst pt = fst kv))
      as [pts [Hpts Hall']].
    { intros kv Hkv.
      assert (Hstr : is_str (snd kv) = false).
      { pose proof (Forall2_right _ _ _ (fun kv => is_str (snd kv) = false) _ _
                      (fun x y H => proj2 H) Hall) as Hright.
        rewrite Forall_forall in Hright. apply Hright. assumption. }
      destruct (div_scalar_total (snd kv) lakh Hstr) as [y Hdiv].
      rewrite Hdiv. eexists. split; reflexivity. }
    rewrite Hpts. cbn [bind]. exists pts. split; [reflexivity|].
    assert (Hfst : map fst pts = map fst ks).
    { rewrite (Forall2_keys _ _ _ _ _ (fun x y H => H) Hall').
      apply (Forall2_keys _ _ _ _ _ (fun x y H => proj1 H) Hall). }
    rewrite Hfst. split; [assumption|].
    rewrite <- Hkeys. apply Permutation_map. assumption.
Qed.

(** ** The blocks of the reporting stage *)

Ltac block_cases H :=
  repeat match type of H with
    | Ok _ = Ok _ => apply Ok_pair_inv in H; destruct H as [H _]; symmetry; exact H
    | Raise _ = Ok _ => discriminate H
    | context [if ?b then _ else _] => destruct b
    | context [bind ?c _] => destruct c; cbn [bind fst snd] in H
    end.

Lemma count_blocks_in_place (data data' : DataFrame) (ch : option chart) :
  (model_block data = Ok (data', ch) -> data' = data) /\
  (fuel_block data = Ok (data', ch) -> data' = data) /\
  (transmission_block data = Ok (data', ch) -> data' = data) /\
  (color_block data = Ok (data', ch) -> data' = data) /\
  (city_block data = Ok (data', ch) -> data' = data).
Proof.
  repeat split; intros H;
    unfold model_block, fuel_block, transmission_block, color_block, city_block in H;
    block_cases H.
Qed.

Lemma year_blocks_in_place (data data' : DataFrame) (ch : option chart) :
  (year_block data = Ok (data', ch) -> data' = data) /\
  (avg_price_block data = Ok (data', ch) -> data' = data).
Proof.
  split; intros H; unfold year_block, avg_price_block in H; block_cases H.
Qed.

Lemma count_blocks_total (data : DataFrame) :
  (exists ch, model_block data = Ok (data, ch)) /\
  (exists ch, fuel_block data = Ok (data, ch)) /\
  (exists ch, transmission_block data = Ok (data, ch)) /\
  (exists ch, color_block data = Ok (data, ch)) /\
  (exists ch, city_block data = Ok (data, ch)).
Proof.
  unfold model_block, fuel_block, transmission_block, color_block, city_block,
    top_counts.
  repeat split;
    match goal with
    | |- context [in_columns ?c data] =>
        rewrite (in_columns_getitem c data); destruct (getitem data c);
        eexists; reflexivity
    end.
Qed.

Lemma setitem_same_column (data : DataFrame) (name : string) (s : Series) :
  getitem data name = Ok s -> setitem data name s = data.
Proof.
  unfold getitem. destruct (get_loc name (columns data)) as [j|] eqn:Hloc;
    [|discriminate].
  intros H. injection H as <-.
  destruct (get_loc_Some _ _ _ Hloc) as [Hlt _].
  rewrite (nth_columns_default j (columns data) (name, object) Hlt).
  fold (dtype_at j (columns data)).
  rewrite <- (map_id (column_values j data)).
  rewrite (setitem_present data name _ (fun v => v) j) by assumption.
  rewrite (set_nth_column_same name _ (columns data) j Hloc eq_refl).
  rewrite (map_ext_in _ (fun r => r)).
  - rewrite map_id. apply frame_eta.
  - intros r _. unfold upd. apply set_nth_same.
Qed.

Lemma price_block_spec (data : DataFrame) :
  rectangular data -> numbers_column "price" data ->
  exists price lakhs,
    getitem data "price" = Ok price /\
    div_series price lakh = Ok (numeric, lakhs) /\
    forallb is_num lakhs = true /\
    price_block data =
      Ok (setitem data "price_in_lakhs" (numeric, lakhs), Some (Histogram lakhs)).
Proof.
  intros Hrect Hprice.
  destruct (assign_lakhs data Hrect Hprice)
    as [price [lakhs [Hget [Hdiv [Hnum [Hsame _]]]]]].
  exists price, lakhs. repeat (split; [assumption|]).
  unfold price_block. rewrite in_columns_getitem, Hget. cbn [bind].
  rewrite Hdiv. cbn [bind]. rewrite Hsame. reflexivity.
Qed.

Lemma in_range_total (vals : list value) :
  forallb is_num vals = true -> exists mask, mapM in_range vals = Ok mask.
Proof.
  induction vals as [|v vals IH]; simpl; intros H; [eexists; reflexivity|].
  apply andb_true_iff in H. destruct H as [Hv H].
  destruct (IH H) as [mask Hmask]. destruct v as [| |q]; try discriminate.
  simpl. rewrite Hmask. eexists. reflexivity.
Qed.

Lemma getitem_same_columns (d1 d2 : DataFrame) (c : string) (s : Series) :
  columns d2 = columns d1 -> getitem d1 c = Ok s -> exists s', getitem d2 c = Ok s'.
Proof.
  intros Hcols. unfold getitem. rewrite Hcols.
  destruct (get_loc c (columns d1)); [|discriminate].
  intros _. eexists. reflexivity.
Qed.

Lemma mileage_block_spec (data : DataFrame) :
  rectangular data -> numbers_column "price" data ->
  exists price lakhs ch,
    getitem data "price" = Ok price /\
    div_series price lakh = Ok (numeric, lakhs) /\
    (mileage_block data = Ok (data, ch) \/
     mileage_block data = Ok (setitem data "price_in_lakhs" (numeric, lakhs), ch)).
Proof.
  intros Hrect Hprice.
  destruct (assign_lakhs data Hrect Hprice)
    as [price [lakhs [Hget [Hdiv [Hnum [Hsame [Hrect' [_ Hframe]]]]]]]].
  unfold mileage_block. rewrite !in_columns_getitem, Hget.
  destruct (getitem data "mileage") as [mileage|e] eqn:Hm.
  - cbn [andb bind]. rewrite Hdiv. cbn [bind].
    set (data1 := setitem data "price_in_lakhs" (numeric, lakhs)) in *.
    rewrite Hsame. cbn [bind snd].
    destruct (in_range_total lakhs Hnum) as [mask Hmask]. rewrite Hmask. cbn [bind].
    assert (Hm1 : getitem data1 "mileage" = Ok mileage)
      by (rewrite Hframe; [assumption|discriminate]).
    destruct (getitem_same_columns data1
                (mkDF (columns data1) (select mask (rows data1)))
                "mileage" mileage eq_refl Hm1) as [xs Hxs].
    destruct (getitem_same_columns data1
                (mkDF (columns data1) (select mask (rows data1)))
                "price_in_lakhs" (numeric, lakhs) eq_refl Hsame) as [ys Hys].
    rewrite Hxs, Hys. cbn [bind].
    exists price, lakhs. eexists. split; [reflexivity|]. split; [assumption|].
    right. reflexivity.
  - cbn [andb]. exists price, lakhs, None. split; [reflexivity|].
    split; [assumption|]. left. reflexivity.
Qed.

(** ** The reporting stage as a whole *)

Lemma clean_chartable (data : DataFrame) : is_clean data -> chartable data.
Proof.
  intros [Hnum [_ Hrows]].
  assert (Hcol : forall c, In c numeric_columns -> numbers_column c data).
  { intros c Hc. destruct (Hnum c Hc) as [j [Hloc _]].
    unfold numbers_column, getitem. rewrite Hloc. do 2 eexists.
    split; [reflexivity|]. unfold column_values.
    apply forallb_forall. intros v Hv. apply in_map_iff in Hv.
    destruct Hv as [r [<- Hr]]. rewrite Forall_forall in Hrows.
    destruct (Hrows r Hr) as [_ [_ [Hn _]]].
    destruct (Hn j) as [q Hq]; [apply In_get_indexer; exists c; auto|].
    rewrite Hq. reflexivity. }
  split; [|split].
  - unfold rectangular. eapply Forall_impl; [|exact Hrows]. intros r H. apply H.
  - apply Hcol. simpl. auto.
  - apply Hcol. simpl. auto.
Qed.

Lemma reporting_spec (data : DataFrame) :
  chartable data ->
  exists price lakhs dty years c1 c2 c3 c5 c7 c9 pts1 pts2,
    getitem data "price" = Ok price /\
    div_series price lakh = Ok (numeric, lakhs) /\
    getitem data "year" = Ok (dty, years) /\
    reporting data =
      Ok (setitem data "price_in_lakhs" (numeric, lakhs),
          [c1; c2; c3; Some (Histogram lakhs); c5; Some (LineCounts pts1);
           c7; Some (LineValues pts2); c9]) /\
    same_but_lakhs data (setitem data "price_in_lakhs" (numeric, lakhs)) /\
    getitem (setitem data "price_in_lakhs" (numeric, lakhs)) "price_in_lakhs" =
      Ok (numeric, lakhs) /\
    StronglySorted year_lt (map fst pts1) /\
    Permutation (map fst pts1) (unique (filter notnull years)) /\
    StronglySorted year_lt (map fst pts2) /\
    Permutation (map fst pts2) (unique (filter notnull years)).
Proof.
  intros [Hrect [Hprice Hyear]].
  destruct (assign_lakhs data Hrect Hprice)
    as [price [lakhs [Hget [Hdiv [Hnum [Hsame [Hrect1 Hframe]]]]]]].
  cbv zeta in Hsame, Hrect1, Hframe.
  destruct (price_block_spec data Hrect Hprice)
    as [price' [lakhs' [Hget' [Hdiv' [_ Hpb]]]]].
  assert (price' = price) by congruence. subst price'.
  assert (lakhs' = lakhs) by congruence. subst lakhs'.
  set (data1 := setitem data "price_in_lakhs" (numeric, lakhs)) in *.
  assert (Hprice1 : numbers_column "price" data1)
    by (apply (numbers_column_same "price" data); [discriminate|assumption|assumption]).
  destruct Hyear as [dty [years [Hy Hyn]]].
  destruct Hprice as [dtp [prices [Hp Hpn]]].
  assert (Hy1 : getitem data1 "year" = Ok (dty, years))
    by (rewrite (proj2 Hframe); [assumption|discriminate]).
  assert (Hp1 : getitem data1 "price" = Ok (dtp, prices))
    by (rewrite (proj2 Hframe); [assumption|discriminate]).
  destruct (mileage_block_spec data1 Hrect1 Hprice1)
    as [price1 [lakhs1 [c5 [Hget1 [Hdiv1 Hmb]]]]].
  assert (Hmb' : mileage_block data1 = Ok (data1, c5)).
  { destruct Hmb as [Hmb|Hmb]; [assumption|].
    assert (price1 = price) by congruence. subst price1.
    assert (lakhs1 = lakhs) by congruence. subst lakhs1.
    rewrite (setitem_same_column data1 "price_in_lakhs" (numeric, lakhs) Hsame) in Hmb.
    assumption. }
  destruct (year_block_spec data1 dty years Hy1 Hyn) as [pts1 [Hyb [Hs1 [Hperm1 _]]]].
  destruct (avg_price_block_spec data1 dty dtp years prices Hy1 Hyn Hp1 Hpn)
    as [pts2 [Hab [Hs2 Hperm2]]].
  destruct (count_blocks_total data) as [[c1 H1] [[c2 H2] [[c3 H3] _]]].
  destruct (count_blocks_total data1) as [_ [_ [_ [[c7 H7] [c9 H9]]]]].
  exists price, lakhs, dty, years, c1, c2, c3, c5, c7, c9, pts1, pts2.
  split; [assumption|]. split; [assumption|]. split; [assumption|].
  split.
  - unfold reporting, blocks. cbn [run_blocks].
    rewrite H1. cbn [bind fst snd]. rewrite H2. cbn [bind fst snd].
    rewrite H3. cbn [bind fst snd]. rewrite Hpb. cbn [bind fst snd].
    fold data1. rewrite Hmb'. cbn [bind fst snd]. rewrite Hyb. cbn [bind fst snd].
    rewrite H7. cbn [bind fst snd]. rewrite Hab. cbn [bind fst snd].
    rewrite H9. cbn [bind fst snd]. reflexivity.
  - repeat (split; [assumption|]). assumption.
Qed.

(** C9: on the clean table of a table read from a file the reporting stage
    runs without error, and the points of its two line charts over the
    years (the sixth and the eighth chart) are the distinct years of the
    table in strictly ascending order, whatever the order of the rows. *)
Theorem year_charts_sorted_ascending :
  forall parse_number input clean rep,
    well_formed input ->
    clean_pipeline parse_number input = Ok (clean, rep) ->
    exists dty years shown charts pts1 pts2,
      getitem clean "year" = Ok (dty, years) /\
      reporting clean = Ok (shown, charts) /\
      nth_error charts 5 = Some (Some (LineCounts pts1)) /\
      nth_error charts 7 = Some (Some (LineValues pts2)) /\
      StronglySorted year_lt (map fst pts1) /\
      Permutation (map fst pts1) (unique (filter notnull years)) /\
      StronglySorted year_lt (map fst pts2) /\
      Permutation (map fst pts2) (unique (filter notnull years)).
Proof.
  intros parse_number input clean rep Hwf Hclean.
  pose proof (pipeline_output_is_clean parse_number input clean rep Hwf Hclean) as Hc.
  destruct (reporting_spec clean (clean_chartable clean Hc))
    as [price [lakhs [dty [years [c1 [c2 [c3 [c5 [c7 [c9 [pts1 [pts2
        [_ [_ [Hy [Hrun [_ [_ [Hs1 [Hp1 [Hs2 Hp2]]]]]]]]]]]]]]]]]]]]].
  exists dty, years. eexists. eexists. exists pts1, pts2.
  split; [exact Hy|]. split; [exact Hrun|].
  split; [reflexivity|]. split; [reflexivity|].
  repeat (split; [assumption|]). assumption.
Qed.

Lemma year_charts_sorted_ascending_witness :
  getitem fuel_input "year" =
    Ok (numeric, [Num (inject_Z 2015); Num (inject_Z 2001); Num (inject_Z 2012)]) /\
  exists clean rep shown charts pts1 pts2,
    clean_pipeline parse_decimal fuel_input = Ok (clean, rep) /\
    reporting clean = Ok (shown, charts) /\
    nth_error charts 5 = Some (Some (LineCounts pts1)) /\
    nth_error charts 7 = Some (Some (LineValues pts2)) /\
    map fst pts1 = [Num (inject_Z 2001); Num (inject_Z 2012); Num (inject_Z 2015)] /\
    map fst pts2 = [Num (inject_Z 2001); Num (inject_Z 2012); Num (inject_Z 2015)] /\
    StronglySorted year_lt (map fst pts1) /\
    StronglySorted year_lt (map fst pts2).
Proof.
  split; [reflexivity|].
  assert (Hwf : well_formed fuel_input) by solve_well_formed.
  destruct (clean_pipeline parse_decimal fuel_input) as [[clean rep]|e] eqn:E;
    [|vm_compute in E; discriminate E].
  destruct (year_charts_sorted_ascending parse_decimal fuel_input clean rep Hwf E)
    as [dty [years [shown [charts [pts1 [pts2 [_ [Hrun [H5 [H7 [Hs1 [_ [Hs2 _]]]]]]]]]]]]].
  assert (Hpts : map fst pts1 =
                   [Num (inject_Z 2001); Num (inject_Z 2012); Num (inject_Z 2015)] /\
                 map fst pts2 =
                   [Num (inject_Z 2001); Num (inject_Z 2012); Num (inject_Z 2015)]).
  { pose proof E as E'. vm_compute in E'.
    apply Ok_pair_inv in E'. destruct E' as [Hclean _].
    pose proof Hrun as Hrun'. rewrite <- Hclean in Hrun'. vm_compute in Hrun'.
    apply Ok_pair_inv in Hrun'. destruct Hrun' as [_ Hcharts].
    pose proof H5 as H5'. pose proof H7 as H7'.
    rewrite <- Hcharts in H5', H7'. vm_compute in H5', H7'.
    injection H5' as <-. injection H7' as <-. split; reflexivity. }
  destruct Hpts as [Hp1 Hp2].
  exists clean, rep, shown, charts, pts1, pts2. auto 10.
Defined.

(** ** The clean table during the reporting stage *)

(** C3: seven of the nine chart blocks give back the table they were
    given.  On the clean table of a table read from a file the price
    block assigns the column [price_in_lakhs] (price / 100000), and the
    table the reporting stage leaves is the clean table with that one
    column assigned: the same rows in the same order, and every other
    column as it was. *)
Theorem reporting_only_assigns_price_in_lakhs :
  forall parse_number input clean rep,
    well_formed input ->
    clean_pipeline parse_number input = Ok (clean, rep) ->
    (forall data data' ch,
        model_block data = Ok (data', ch) \/ fuel_block data = Ok (data', ch) \/
        transmission_block data = Ok (data', ch) \/ year_block data = Ok (data', ch) \/
        color_block data = Ok (data', ch) \/ avg_price_block data = Ok (data', ch) \/
        city_block data = Ok (data', ch) ->
        data' = data) /\
    exists price lakhs charts,
      getitem clean "price" = Ok price /\
      div_series price lakh = Ok (numeric, lakhs) /\
      price_block clean =
        Ok (setitem clean "price_in_lakhs" (numeric, lakhs), Some (Histogram lakhs)) /\
      reporting clean = Ok (setitem clean "price_in_lakhs" (numeric, lakhs), charts) /\
      same_but_lakhs clean (setitem clean "price_in_lakhs" (numeric, lakhs)) /\
      getitem (setitem clean "price_in_lakhs" (numeric, lakhs)) "price_in_lakhs" =
        Ok (numeric, lakhs).
Proof.
  intros parse_number input clean rep Hwf Hclean. split.
  - intros data data' ch H.
    destruct (count_blocks_in_place data data' ch) as [Hm [Hf [Ht [Hc Hci]]]].
    destruct (year_blocks_in_place data data' ch) as [Hy Ha].
    destruct H as [H|[H|[H|[H|[H|[H|H]]]]]]; auto.
  - pose proof (pipeline_output_is_clean parse_number input clean rep Hwf Hclean) as Hc.
    pose proof (clean_chartable clean Hc) as Hch.
    destruct (reporting_spec clean Hch)
      as [price [lakhs [dty [years [c1 [c2 [c3 [c5 [c7 [c9 [pts1 [pts2
          [Hp [Hd [_ [Hrun [Hsame [Hget _]]]]]]]]]]]]]]]]]].
    destruct Hch as [Hrect [Hprice _]].
    destruct (price_block_spec clean Hrect Hprice)
      as [price' [lakhs' [Hp' [Hd' [_ Hpb]]]]].
    assert (price' = price) by congruence. subst price'.
    assert (lakhs' = lakhs) by congruence. subst lakhs'.
    exists price, lakhs. eexists.
    split; [exact Hp|]. split; [exact Hd|]. split; [exact Hpb|].
    split; [exact Hrun|]. split; assumption.
Qed.

Lemma reporting_only_assigns_price_in_lakhs_witness :
  exists clean rep price lakhs charts,
    clean_pipeline parse_decimal twin_input = Ok (clean, rep) /\
    getitem clean "price" = Ok price /\
    div_series price lakh = Ok (numeric, lakhs) /\
    reporting clean = Ok (setitem clean "price_in_lakhs" (numeric, lakhs), charts) /\
    same_but_lakhs clean (setitem clean "price_in_lakhs" (numeric, lakhs)).
Proof.
  assert (Hwf : well_formed twin_input) by solve_well_formed.
  destruct (clean_pipeline parse_decimal twin_input) as [[clean rep]|e] eqn:E;
    [|discriminate].
  destruct (reporting_only_assigns_price_in_lakhs parse_decimal twin_input clean rep Hwf E)
    as [_ [price [lakhs [charts [Hp [Hd [_ [Hrun [Hsame _]]]]]]]]].
  exists clean, rep, price, lakhs, charts. auto 10.
Defined.

(** The claim C3 as stated fails: the price block adds a column to the
    clean table, and the table the reporting stage leaves is not the clean
    table. *)
Lemma price_block_changes_clean_table :
  well_formed twin_input /\
  exists clean rep after ch shown charts,
    clean_pipeline parse_decimal twin_input = Ok (clean, rep) /\
    price_block clean = Ok (after, ch) /\
    columns after = columns clean ++ [("price_in_lakhs", numeric)] /\
    after <> clean /\
    reporting clean = Ok (shown, charts) /\
    shown <> clean.
Proof.
  split; [solve_well_formed|].
  do 6 eexists. split; [vm_compute; reflexivity|].
  split; [vm_compute; reflexivity|].
  split; [reflexivity|]. split.
  - intros H. apply (f_equal (fun d => List.length (columns d))) in H.
    vm_compute in H. discriminate H.
  - split; [vm_compute; reflexivity|].
    intros H. apply (f_equal (fun d => List.length (columns d))) in H.
    vm_compute in H. discriminate H.
Qed.

(** * Further properties of the script *)

(** ** Deduplication *)

Lemma FirstOccurrences_covers (seen rs out : list row) :
  FirstOccurrences seen rs out ->
  forall r, In r rs ->
    (exists e, In e out /\ row_eqb r e = true) \/
    (exists s, In s seen /\ row_eqb r s = true).
Proof.
  induction 1 as [seen|seen r0 rs out [e [He Hre]] _ IH|seen r0 rs out Hno _ IH];
    intros r Hr.
  - contradiction.
  - destruct Hr as [<-|Hr].
    + right. exists e. auto.
    + destruct (IH r Hr) as [Hout|[s [Hs Hrs]]]; [left; assumption|].
      apply in_app_or in Hs. destruct Hs as [Hs|[<-|[]]].
      * right. exists s. auto.
      * right. exists e. split; [assumption|].
        eapply row_eqb_trans; eassumption.
  - destruct Hr as [<-|Hr].
    + left. exists r0. split; [left; reflexivity|apply row_eqb_refl].
    + destruct (IH r Hr) as [[e [He Hre]]|[s [Hs Hrs]]].
      * left. exists e. split; [right; assumption|assumption].
      * apply in_app_or in Hs. destruct Hs as [Hs|[<-|[]]].
        -- right. exists s. auto.
        -- left. exists r0. split; [left; reflexivity|assumption].
Qed.

(** X1: deduplication loses no listing and is idempotent: every row of
    the table has an equal row in the result, the rows of the result are
    pairwise different, and deduplicating the result changes nothing. *)
Theorem drop_duplicates_complete_and_idempotent :
  forall data,
    (forall r, In r (rows data) ->
       exists e, In e (rows (drop_duplicates data)) /\ row_eqb r e = true) /\
    Distinct (rows (drop_duplicates data)) /\
    drop_duplicates (drop_duplicates data) = drop_duplicates data.
Proof.
  intros data. split; [|split].
  - intros r Hr.
    destruct (FirstOccurrences_covers [] (rows data) _
                (duplicated_from_FirstOccurrences [] (rows data)) r Hr)
      as [H|[s [[] _]]].
    exact H.
  - apply drop_duplicates_gives_Distinct.
  - apply drop_duplicates_Distinct. apply drop_duplicates_gives_Distinct.
Qed.

(** ** Normalisation of text *)

(** X2: stripping and lower-casing commute, normalising twice is
    normalising once, and the normalised text has no white space at either
    end and no capital letter. *)
Theorem strip_lower_normal_form :
  forall s,
    lower (strip s) = strip (lower s) /\
    lower (strip (lower (strip s))) = lower (strip s) /\
    leading_space (lower (strip s)) = false /\
    trailing_space (lower (strip s)) = false /\
    has_upper (lower (strip s)) = false.
Proof.
  intros s. split; [symmetry; apply strip_lower|]. split.
  - rewrite strip_lower, strip_idempotent, lower_idempotent. reflexivity.
  - destruct (norm_cell_trimmed_lower s) as [t [Ht H]].
    simpl in Ht. injection Ht as <-. exact H.
Qed.

(** ** Column assignment and lookup *)

(** X3: after [data[name] = s] on a table whose rows have one cell per
    column, [data[name]] is [s], every other column reads as before, and
    the table has the same number of rows, each still with one cell per
    column. *)
Theorem setitem_then_getitem :
  forall data name dt vals,
    rectangular data -> List.length vals = len data ->
    getitem (setitem data name (dt, vals)) name = Ok (dt, vals) /\
    (forall c, c <> name ->
       getitem (setitem data name (dt, vals)) c = getitem data c) /\
    len (setitem data name (dt, vals)) = len data /\
    rectangular (setitem data name (dt, vals)).
Proof.
  intros data name dt vals Hrect Hlen. split; [|split; [|split]].
  - apply setitem_getitem_same; assumption.
  - intros c Hc. apply setitem_getitem_other; assumption.
  - apply setitem_len. assumption.
  - apply setitem_rectangular; assumption.
Qed.

Lemma setitem_then_getitem_witness :
  getitem (setitem twin_input "price_in_lakhs"
                   (numeric, [Num (9 # 1); Num (9 # 1)])) "price_in_lakhs" =
  Ok (numeric, [Num (9 # 1); Num (9 # 1)]).
Proof.
  apply (setitem_then_getitem twin_input "price_in_lakhs" numeric
           [Num (9 # 1); Num (9 # 1)]).
  - repeat constructor.
  - reflexivity.
Defined.

(** ** Errors of the cleaning block *)

Lemma forallb_ext_in (A : Type) (f g : A -> bool) (l : list A) :
  (forall x, In x l -> f x = g x) -> forallb f l = forallb g l.
Proof.
  induction l as [|x l IH]; intros H; simpl; [reflexivity|].
  rewrite (H x (or_introl eq_refl)), IH; [reflexivity|].
  intros y Hy. apply H. right. assumption.
Qed.

Lemma all_object_after_coercion (parse_number : string -> option Q) (data : DataFrame) :
  all_object categorical_columns
             (columns (coerce_columns parse_number numeric_columns data)) =
  all_object categorical_columns (columns data).
Proof.
  destruct (coerce_columns_spec parse_number numeric_columns data) as [Hnames [_ Hd]].
  unfold all_object. apply forallb_ext_in. intros c Hc.
  rewrite (get_loc_names c _ _ Hnames).
  destruct (get_loc c (columns data)) as [j|] eqn:Hloc; [|reflexivity].
  unfold dtype_at. rewrite Hd; [reflexivity|].
  intros Hn. apply (numeric_categorical_disjoint (columns data) j Hn).
  apply In_get_indexer. exists c. auto.
Qed.

(** X4: the cleaning block raises a [KeyError] naming the absent labels
    when one of [price], [mileage], [year] is not a column; otherwise an
    [AttributeError] when a categorical column that is there is not of
    object dtype; otherwise it returns a table. *)
Theorem clean_pipeline_outcome :
  forall parse_number data,
    (forallb (fun c => in_columns c data) numeric_columns = false ->
     clean_pipeline parse_number data =
     Raise (KeyError (filter (fun c => negb (in_columns c data)) numeric_columns))) /\
    (forallb (fun c => in_columns c data) numeric_columns = true ->
     all_object categorical_columns (columns data) = false ->
     clean_pipeline parse_number data = Raise AttributeError) /\
    (forallb (fun c => in_columns c data) numeric_columns = true ->
     all_object categorical_columns (columns data) = true ->
     exists clean rep, clean_pipeline parse_number data = Ok (clean, rep)).
Proof.
  intros parse_number data.
  pose proof (all_object_after_coercion parse_number (dropna (drop_duplicates data)))
    as Hobj.
  change (columns (dropna (drop_duplicates data))) with (columns data) in Hobj.
  split; [|split].
  - apply clean_pipeline_absent_numeric.
  - intros Hp Ho. rewrite clean_pipeline_spec. cbv zeta.
    rewrite Hp, Hobj, Ho. reflexivity.
  - intros Hp Ho. rewrite clean_pipeline_spec. cbv zeta.
    rewrite Hp, Hobj, Ho. eexists. eexists. reflexivity.
Qed.

Lemma clean_pipeline_outcome_witness :
  clean_pipeline parse_decimal numeric_model_input = Raise AttributeError.
Proof.
  apply (proj1 (proj2 (clean_pipeline_outcome parse_decimal numeric_model_input)));
    reflexivity.
Defined.

(** ** The counts of the cleaning report *)

Lemma missing_rows_le_cells (rs : list row) :
  List.length (filter has_missing rs) <= missing_cells rs.
Proof.
  unfold missing_cells. induction rs as [|r rs IH]; simpl; [lia|].
  assert (Hr : indicator (has_missing r) <= count_true (map isnull r)).
  { unfold has_missing. clear IH. induction r as [|v r IHr]; simpl; [lia|].
    rewrite count_true_cons.
    destruct v; simpl in *; destruct (forallb notnull r); simpl in *; lia. }
  destruct (has_missing r); simpl in *; lia.
Qed.

Lemma has_missing_split (rs : list row) :
  List.length (filter (fun r => forallb notnull r) rs) +
  List.length (filter has_missing rs) = List.length rs.
Proof.
  unfold has_missing. induction rs as [|r rs IH]; simpl; [reflexivity|].
  destruct (forallb notnull r); simpl; lia.
Qed.

(** X5: the rows of a table read from a file are accounted for: the
    input has as many rows as the clean table plus the duplicates, the
    rows with a missing value and the invalid rows that were removed.  The
    count the second message reports is a number of cells: it is at least
    the number of rows that step removed. *)
Theorem clean_report_accounts_for_rows :
  forall parse_number input clean rep,
    well_formed input ->
    clean_pipeline parse_number input = Ok (clean, rep) ->
    let removed_missing :=
      List.length (filter has_missing (rows (drop_duplicates input))) in
    (Z.of_nat (len input) =
     Z.of_nat (len clean) + duplicates_removed rep +
     Z.of_nat removed_missing + invalid_rows_removed rep)%Z /\
    (0 <= duplicates_removed rep)%Z /\
    (0 <= invalid_rows_removed rep)%Z /\
    (Z.of_nat removed_missing <= missing_count rep)%Z /\
    len clean <= len input.
Proof.
  intros parse_number input clean rep Hwf Hclean removed_missing.
  pose proof (clean_report parse_number input clean rep Hwf Hclean) as Hrep.
  pose proof (clean_rows parse_number input clean rep Hclean) as Hrows.
  pose proof (select_negb_length (duplicated (rows input)) row (rows input)
                (duplicated_from_length [] (rows input))) as Hdup.
  fold (duplicated (rows input)) in Hdup.
  change (select (map negb (duplicated (rows input))) (rows input))
    with (rows (drop_duplicates input)) in Hdup.
  set (rows1 := rows (drop_duplicates input)) in *.
  assert (Hrows2 : rows (dropna (drop_duplicates input)) =
                   filter (fun r => forallb notnull r) rows1)
    by apply select_map_filter.
  pose proof (has_missing_split rows1) as Hmiss. fold removed_missing in Hmiss.
  set (locs := get_indexer numeric_columns (columns input)) in *.
  pose proof (filter_split_length _ (invalid_row parse_number locs)
                (rows (dropna (drop_duplicates input)))) as Hinv.
  pose proof (missing_rows_le_cells rows1) as Hcells. fold removed_missing in Hcells.
  assert (Hlen : len clean =
                 List.length (filter (fun r => negb (invalid_row parse_number locs r))
                                     (rows (dropna (drop_duplicates input)))))
    by (unfold len; rewrite Hrows, length_map; reflexivity).
  rewrite Hrows2 in Hinv, Hlen.
  rewrite Hrep. cbn [duplicates_removed missing_count invalid_rows_removed].
  rewrite Hrows2. unfold len in *.
  clearbody removed_missing. clear Hrep Hrows Hrows2.
  unfold row in *. repeat split; lia.
Qed.

Lemma clean_report_accounts_for_rows_witness :
  exists clean rep,
    clean_pipeline parse_decimal bad_year_input = Ok (clean, rep) /\
    (Z.of_nat (len bad_year_input) =
     Z.of_nat (len clean) + duplicates_removed rep +
     Z.of_nat (List.length (filter has_missing (rows (drop_duplicates bad_year_input)))) +
     invalid_rows_removed rep)%Z.
Proof.
  eexists. eexists. split; [vm_compute; reflexivity|].
  refine (proj1 (clean_report_accounts_for_rows parse_decimal bad_year_input _ _ _ _)).
  - solve_well_formed.
  - vm_compute. reflexivity.
Defined.

(** ** The schema of the clean table *)

(** X6: cleaning keeps the column labels in their order; the columns
    [price], [mileage] and [year] become numeric and every other column
    keeps its dtype. *)
Theorem clean_schema_preserved :
  forall parse_number input clean rep,
    clean_pipeline parse_number input = Ok (clean, rep) ->
    map fst (columns clean) = map fst (columns input) /\
    (forall c j, In c numeric_columns -> get_loc c (columns input) = Some j ->
       dtype_at j (columns clean) = numeric) /\
    (forall c j, ~ In c numeric_columns -> get_loc c (columns input) = Some j ->
       dtype_at j (columns clean) = dtype_at j (columns input)).
Proof.
  intros parse_number input clean rep Hclean.
  pose proof (clean_columns parse_number input clean rep Hclean) as Hcols.
  split; [|split].
  - rewrite Hcols. apply clean_names.
  - intros c j Hc Hloc. apply (numeric_dtype parse_number input clean rep Hclean).
    apply In_get_indexer. exists c. auto.
  - intros c j Hc Hloc. rewrite Hcols.
    destruct (coerce_columns_spec parse_number numeric_columns
                (dropna (drop_duplicates input))) as [_ [_ Hd]].
    unfold dtype_at. rewrite Hd; [reflexivity|].
    change (columns (dropna (drop_duplicates input))) with (columns input).
    intros Hin. apply In_get_indexer in Hin. destruct Hin as [c' [Hc' Hloc']].
    apply get_loc_Some in Hloc, Hloc'. destruct Hloc as [_ Hn], Hloc' as [_ Hn'].
    apply Hc. congruence.
Qed.

Lemma clean_schema_preserved_witness :
  exists clean rep,
    clean_pipeline parse_decimal bad_year_input = Ok (clean, rep) /\
    map fst (columns clean) = map fst (columns bad_year_input).
Proof.
  eexists. eexists. split; [vm_compute; reflexivity|].
  refine (proj1 (clean_schema_preserved parse_decimal bad_year_input _ _ _)).
  vm_compute. reflexivity.
Defined.

(** ** The values of the clean table *)




(** ** Statistics of a table with rows *)

Lemma numbers_of_numbers (vals : list value) :
  forallb is_num vals = true ->
  numbers_of vals = Ok (the_numbers vals) /\
  List.length (the_numbers vals) = List.length vals.
Proof.
  induction vals as [|v vals IH]; simpl; intros H; [split; reflexivity|].
  apply andb_true_iff in H. destruct H as [Hv H].
  destruct (IH H) as [Hn Hl]. destruct v as [| |q]; try discriminate.
  rewrite Hn. simpl. split; [reflexivity|]. f_equal. assumption.
Qed.






Lemma series_mean_nonempty (dt : dtype) (vals : list value) :
  forallb is_num vals = true -> vals <> [] ->
  series_mean (dt, vals) = Ok (Num (Qmean (the_numbers vals))).
Proof.
  intros Hnum Hne. destruct (numbers_of_numbers vals Hnum) as [Hn Hl].
  unfold series_mean. cbn [snd]. rewrite Hn. cbn [bind].
  destruct (the_numbers vals) as [|q qs] eqn:E; [|reflexivity].
  destruct vals; [contradiction|discriminate].
Qed.





Lemma is_clean_numbers (data : DataFrame) (c : string) :
  is_clean data -> In c numeric_columns -> numbers_column c data.
Proof.
  intros [Hnum [_ Hrows]] Hc. destruct (Hnum c Hc) as [j [Hloc _]].
  unfold numbers_column, getitem. rewrite Hloc. do 2 eexists.
  split; [reflexivity|]. unfold column_values.
  apply forallb_forall. intros v Hv. apply in_map_iff in Hv.
  destruct Hv as [r [<- Hr]]. rewrite Forall_forall in Hrows.
  destruct (Hrows r Hr) as [_ [_ [Hn _]]].
  destruct (Hn j) as [q Hq]; [apply In_get_indexer; exists c; auto|].
  rewrite Hq. reflexivity.
Qed.



(** ** The whole run *)



(** ** The pie charts *)

Lemma list_sum_indicator (A : Type) (p : A -> bool) (l : list A) :
  list_sum (map (fun x => indicator (p x)) l) = List.length (filter p l).
Proof.
  induction l as [|x l IH]; simpl; [reflexivity|].
  rewrite IH. destruct (p x); reflexivity.
Qed.

Lemma counts_partition (keys vals : list value) :
  (forall v, count_value v keys <= 1) ->
  (forall w, In w vals -> exists u, In u keys /\ value_eqb u w = true) ->
  list_sum (map (fun v => count_value v vals) keys) = List.length vals.
Proof.
  intros Hone. induction vals as [|w vals IH]; intros Hcover.
  - unfold count_value. simpl. apply list_sum_map_zero.
  - rewrite (map_ext _ (fun v => indicator (value_eqb v w) + count_value v vals))
      by (intros v; unfold count_value; simpl; destruct (value_eqb v w); reflexivity).
    rewrite list_sum_map_add, IH by (intros x Hx; apply Hcover; right; assumption).
    rewrite list_sum_indicator.
    rewrite (filter_ext _ (value_eqb w)) by (intros v; apply value_eqb_sym).
    fold (count_value w keys).
    destruct (Hcover w (or_introl eq_refl)) as [u [Hu Huw]].
    rewrite value_eqb_sym in Huw.
    pose proof (count_value_In w u keys Hu Huw). specialize (Hone w).
    simpl. lia.
Qed.

Lemma list_sum_Permutation (l1 l2 : list nat) :
  Permutation l1 l2 -> list_sum l1 = list_sum l2.
Proof. induction 1; simpl; lia. Qed.

Lemma value_counts_total (s : Series) :
  list_sum (map snd (value_counts s)) = List.length (filter notnull (snd s)).
Proof.
  rewrite (list_sum_Permutation _ _
             (Permutation_map snd (value_counts_Permutation s))).
  rewrite map_map. cbn [snd].
  apply counts_partition.
  - intros v. apply unique_count.
  - intros w Hw. apply unique_covers. assumption.
Qed.





(** ** The price histogram and the scatter chart *)

Lemma div_series_in_lakhs (dt : dtype) (prices : list value) :
  forallb is_num prices = true ->
  div_series (dt, prices) lakh = Ok (numeric, map in_lakhs prices) /\
  forallb is_num (map in_lakhs prices) = true.
Proof.
  intros H. unfold div_series. cbn [snd].
  assert (Hm : mapM (fun v => div_scalar v lakh) prices = Ok (map in_lakhs prices) /\
               forallb is_num (map in_lakhs prices) = true).
  { induction prices as [|v prices IH]; [split; reflexivity|].
    simpl in H. apply andb_true_iff in H. destruct H as [Hv H].
    destruct (IH H) as [IH1 IH2]. destruct v as [| |q]; try discriminate.
    simpl. rewrite IH1. split; [reflexivity|assumption]. }
  destruct Hm as [Hm Hn]. rewrite Hm. split; [reflexivity|assumption].
Qed.

Lemma in_range_mask (vals : list value) :
  forallb is_num vals = true -> mapM in_range vals = Ok (map within_bounds vals).
Proof.
  induction vals as [|v vals IH]; simpl; intros H; [reflexivity|].
  apply andb_true_iff in H. destruct H as [Hv H].
  destruct v as [| |q]; try discriminate. simpl. rewrite (IH H). reflexivity.
Qed.

Lemma map_select (A B : Type) (f : A -> B) (mask : list bool) (l : list A) :
  map f (select mask l) = select mask (map f l).
Proof.
  revert mask. induction l as [|x l IH]; intros [|b mask]; simpl; try reflexivity.
  destruct b; simpl; rewrite IH; reflexivity.
Qed.

Lemma combine_select (A B : Type) (mask : list bool) (l : list A) (l' : list B) :
  List.length l = List.length l' ->
  combine (select mask l) (select mask l') = select mask (combine l l').
Proof.
  revert mask l'. induction l as [|x l IH]; intros [|b mask] [|y l'] H; simpl in *;
    try discriminate; try reflexivity.
  injection H as H. destruct b; simpl; rewrite IH by assumption; reflexivity.
Qed.

Lemma map_combine_snd_fun (A B C : Type) (g : B -> C) (l : list A) (l' : list B) :
  List.length l = List.length l' ->
  map (fun p => g (snd p)) (combine l l') = map g l'.
Proof.
  revert l'. induction l as [|x l IH]; intros [|y l'] H; simpl in *;
    try discriminate; try reflexivity.
  injection H as H. rewrite IH by assumption. reflexivity.
Qed.

Lemma getitem_select (data : DataFrame) (c : string) (dt : dtype)
      (vals : list value) (mask : list bool) :
  getitem data c = Ok (dt, vals) ->
  getitem (mkDF (columns data) (select mask (rows data))) c = Ok (dt, select mask vals).
Proof.
  unfold getitem, column_values. cbn [columns rows].
  destruct (get_loc c (columns data)); [|discriminate].
  intros H. injection H as <- <-. rewrite map_select. reflexivity.
Qed.

Lemma price_blocks_values :
  forall data dtp prices,
    rectangular data ->
    getitem data "price" = Ok (dtp, prices) ->
    forallb is_num prices = true ->
    price_block data =
      Ok (setitem data "price_in_lakhs" (numeric, map in_lakhs prices),
          Some (Histogram (map in_lakhs prices))) /\
    (forall dtm miles,
        getitem data "mileage" = Ok (dtm, miles) ->
        mileage_block data =
          Ok (setitem data "price_in_lakhs" (numeric, map in_lakhs prices),
              Some (Scatter (filter (fun pt => within_bounds (snd pt))
                                    (combine miles (map in_lakhs prices)))))) /\
    (getitem data "mileage" = Raise (KeyError ["mileage"]) ->
     mileage_block data = Ok (data, None)).
Proof.
  intros data dtp prices Hrect Hp Hnum.
  destruct (div_series_in_lakhs dtp prices Hnum) as [Hdiv Hlnum].
  set (lakhs := map in_lakhs prices) in *.
  assert (Hlen : List.length lakhs = len data)
    by (unfold lakhs; rewrite length_map; apply (getitem_length "price" data dtp); assumption).
  pose proof (setitem_getitem_same data "price_in_lakhs" numeric lakhs Hrect Hlen)
    as Hsame.
  split; [|split].
  - unfold price_block. rewrite in_columns_getitem, Hp. cbn [bind].
    rewrite Hdiv. cbn [bind]. rewrite Hsame. reflexivity.
  - intros dtm miles Hm.
    set (data1 := setitem data "price_in_lakhs" (numeric, lakhs)) in *.
    assert (Hm1 : getitem data1 "mileage" = Ok (dtm, miles)).
    { unfold data1. rewrite setitem_getitem_other; try assumption. discriminate. }
    unfold mileage_block. rewrite !in_columns_getitem, Hp, Hm. cbn [andb bind].
    rewrite Hdiv. cbn [bind]. fold data1. rewrite Hsame. cbn [bind snd].
    rewrite (in_range_mask lakhs Hlnum). cbn [bind].
    rewrite (getitem_select data1 "mileage" dtm miles _ Hm1).
    rewrite (getitem_select data1 "price_in_lakhs" numeric lakhs _ Hsame).
    cbn [bind snd].
    assert (Hml : List.length miles = List.length lakhs).
    { rewrite Hlen. apply (getitem_length "mileage" data dtm). assumption. }
    rewrite (combine_select _ _ _ miles lakhs Hml).
    rewrite <- (map_combine_snd_fun _ _ _ within_bounds miles lakhs Hml).
    rewrite select_map_filter. reflexivity.
  - intros Hm. unfold mileage_block. rewrite !in_columns_getitem, Hm. reflexivity.
Qed.

(** X11: on a table whose rows have one cell per column and whose
    [price] column holds numbers, the histogram is drawn over the prices
    divided by 100000, which the block stores as the column
    [price_in_lakhs]; when the [mileage] column is there, the points of the
    scatter chart are the pairs (mileage, price in lakhs) of exactly the
    rows whose price in lakhs lies between 1 and 300, in the order of the
    rows. *)
Theorem price_charts_values :
  forall data dtp prices,
    rectangular data ->
    getitem data "price" = Ok (dtp, prices) ->
    forallb is_num prices = true ->
    price_block data =
      Ok (setitem data "price_in_lakhs" (numeric, map in_lakhs prices),
          Some (Histogram (map in_lakhs prices))) /\
    (forall dtm miles,
        getitem data "mileage" = Ok (dtm, miles) ->
        mileage_block data =
          Ok (setitem data "price_in_lakhs" (numeric, map in_lakhs prices),
              Some (Scatter (filter (fun pt => within_bounds (snd pt))
                                    (combine miles (map in_lakhs prices)))))) /\
    (getitem data "mileage" = Raise (KeyError ["mileage"]) ->
     mileage_block data = Ok (data, None)).
Proof.
  intros data dtp prices Hrect Hp Hnum.
  exact (price_blocks_values data dtp prices Hrect Hp Hnum).
Qed.

Lemma price_charts_values_witness :
  exists prices,
    getitem twin_input "price" = Ok (numeric, prices) /\
    price_block twin_input =
      Ok (setitem twin_input "price_in_lakhs" (numeric, map in_lakhs prices),
          Some (Histogram (map in_lakhs prices))).
Proof.
  eexists. split; [reflexivity|].
  refine (proj1 (price_charts_values twin_input numeric _ _ eq_refl eq_refl)).
  repeat constructor.
Defined.

(** ** The values of the two charts over the years *)

Lemma mapM_inv (A B : Type) (f : A -> result B) (l : list A) (out : list B) :
  mapM f l = Ok out -> Forall2 (fun x y => f x = Ok y) l out.
Proof.
  revert out. induction l as [|x l IH]; simpl; intros out H.
  - injection H as <-. constructor.
  - destruct (f x) as [y|] eqn:Hfx; [|discriminate]. cbn [bind] in H.
    destruct (mapM f l) as [ys|]; [|discriminate]. cbn [bind] in H.
    injection H as <-. constructor; [assumption|]. apply IH. reflexivity.
Qed.

Lemma Forall2_In_right (A B : Type) (R : A -> B -> Prop) (l : list A) (out : list B)
      (y : B) :
  Forall2 R l out -> In y out -> exists x, In x l /\ R x y.
Proof.
  induction 1 as [|x y' l out Hxy _ IH]; intros Hin; [contradiction|].
  destruct Hin as [<-|Hin].
  - exists x. split; [left; reflexivity|assumption].
  - destruct (IH Hin) as [x' [Hx' HR]]. exists x'. split; [right|]; assumption.
Qed.

Lemma sort_by_key_inv (B : Type) (l ks : list (value * B)) :
  sort_by_key l = Ok ks -> Permutation ks l.
Proof.
  unfold sort_by_key. destruct (comparable (map fst l)); [|discriminate].
  intros H. injection H as <-. apply sort_by_Permutation.
Qed.

Lemma In_combine_left (A B : Type) (x : A) (l : list A) (l' : list B) :
  List.length l = List.length l' -> In x l -> exists y, In (x, y) (combine l l').
Proof.
  revert l'. induction l as [|a l IH]; intros [|b l'] Hlen Hin; simpl in *;
    try contradiction; try discriminate.
  injection Hlen as Hlen. destruct Hin as [->|Hin].
  - exists b. left. reflexivity.
  - destruct (IH l' Hlen Hin) as [y Hy]. exists y. right. assumption.
Qed.

Lemma group_values_numbers (k : value) (keys vals : list value) :
  forallb is_num vals = true -> forallb is_num (group_values k keys vals) = true.
Proof.
  intros H. rewrite forallb_forall in *. intros v Hv. unfold group_values in Hv.
  apply in_map_iff in Hv. destruct Hv as [[y p] [<- Hin]].
  apply filter_In in Hin. destruct Hin as [Hin _].
  apply in_combine_r in Hin. apply H. assumption.
Qed.

Lemma group_values_nonempty (k : value) (keys vals : list value) :
  List.length keys = List.length vals -> In k keys -> group_values k keys vals <> [].
Proof.
  intros Hlen Hin. destruct (In_combine_left _ _ k keys vals Hlen Hin) as [p Hp].
  unfold group_values. intros Hnil.
  assert (In p (map snd (filter (fun kv => value_eqb k (fst kv)) (combine keys vals)))) as H.
  { apply in_map_iff. exists (k, p). split; [reflexivity|].
    apply filter_In. split; [assumption|]. apply value_eqb_refl. }
  rewrite Hnil in H. contradiction.
Qed.

(** X12: on a table whose [year] and [price] columns hold numbers, both
    charts over the years are drawn without error.  Each point of the
    first carries the number of rows of its year and the counts add up to
    the number of rows; each point of the second carries the mean of the
    prices of the rows of its year, divided by 100000. *)
Theorem year_charts_values :
  forall data dty dtp years prices,
    getitem data "year" = Ok (dty, years) -> forallb is_num years = true ->
    getitem data "price" = Ok (dtp, prices) -> forallb is_num prices = true ->
    exists counts means,
      year_block data = Ok (data, Some (LineCounts counts)) /\
      avg_price_block data = Ok (data, Some (LineValues means)) /\
      (forall y c, In (y, c) counts -> In y years /\ c = count_value y years) /\
      list_sum (map snd counts) = len data /\
      (forall y m, In (y, m) means ->
         In y years /\
         group_values y years prices <> [] /\
         m = Num (Qmean (the_numbers (group_values y years prices)) / lakh)).
Proof.
  intros data dty dtp years prices Hy Hyn Hp Hpn.
  assert (Hpresent : filter notnull years = years).
  { apply filter_all. rewrite forallb_forall in *. intros v Hv.
    specialize (Hyn v Hv). destruct v; [discriminate|discriminate|reflexivity]. }
  assert (Hlen : List.length years = List.length prices).
  { rewrite (getitem_length "year" data dty years Hy).
    rewrite (getitem_length "price" data dtp prices Hp). reflexivity. }
  destruct (year_block_spec data dty years Hy Hyn) as [counts [Hyb [_ [Hperm Hcounts]]]].
  destruct (avg_price_block_spec data dty dtp years prices Hy Hyn Hp Hpn)
    as [means [Hab [_ Hpermm]]].
  rewrite Hpresent in Hperm, Hcounts, Hpermm.
  exists counts, means. split; [assumption|]. split; [assumption|].
  split; [|split].
  - intros y c Hin. split; [|apply (Hcounts y c Hin)].
    apply unique_In. apply (Permutation_in _ Hperm).
    apply in_map_iff. exists (y, c). auto.
  - unfold year_block in Hyb. rewrite in_columns_getitem, Hy in Hyb.
    cbn [bind] in Hyb.
    destruct (sort_by_key (value_counts (dty, years))) as [pts|] eqn:Hs;
      [|discriminate Hyb].
    cbn [bind] in Hyb. apply Ok_pair_inv in Hyb. destruct Hyb as [_ Hyb].
    injection Hyb as ->.
    rewrite (list_sum_Permutation _ _
               (Permutation_map snd (sort_by_key_inv _ _ _ Hs))).
    rewrite (value_counts_total (dty, years)). cbn [snd].
    rewrite Hpresent. apply (getitem_length "year" data dty). assumption.
  - intros y m Hin.
    assert (Hyin : In y years).
    { apply unique_In. apply (Permutation_in _ Hpermm).
      apply in_map_iff. exists (y, m). auto. }
    split; [assumption|]. split; [apply group_values_nonempty; assumption|].
    unfold avg_price_block in Hab. rewrite !in_columns_getitem, Hy, Hp in Hab.
    cbn [andb bind] in Hab.
    destruct (groupby_mean (dty, years) (dtp, prices)) as [avg|] eqn:Hg;
      [|discriminate Hab].
    cbn [bind] in Hab.
    destruct (mapM (fun kv : value * value =>
                      y0 <- div_scalar (snd kv) lakh ;; Ok (fst kv, y0)) avg)
      as [pts|] eqn:Hpts; [|discriminate Hab].
    cbn [bind] in Hab. apply Ok_pair_inv in Hab. destruct Hab as [_ Hab].
    injection Hab as ->.
    destruct (Forall2_In_right _ _ _ _ _ _ (mapM_inv _ _ _ _ _ Hpts) Hin)
      as [[k a] [Hka Hdiv]].
    cbn [fst snd] in Hdiv.
    unfold groupby_mean in Hg. cbn [fst snd] in Hg.
    destruct (sort_by_key (map (fun k0 : value => (k0, tt))
                               (unique (filter notnull years)))) as [ks|];
      [|discriminate Hg].
    cbn [bind] in Hg.
    destruct (Forall2_In_right _ _ _ _ _ _ (mapM_inv _ _ _ _ _ Hg) Hka)
      as [[k0 u] [_ Hmean]].
    cbn [fst snd] in Hmean. fold (group_values k0 years prices) in Hmean.
    destruct (series_mean (dtp, group_values k0 years prices)) as [mk|] eqn:Hsm;
      [|discriminate Hmean].
    cbn [bind] in Hmean. injection Hmean as <- <-.
    destruct (div_scalar mk lakh) as [v|] eqn:Hdv; [|discriminate Hdiv].
    cbn [bind] in Hdiv. injection Hdiv as <- <-.
    rewrite (series_mean_nonempty dtp (group_values k0 years prices)) in Hsm.
    + injection Hsm as <-. simpl in Hdv. injection Hdv as <-. reflexivity.
    + apply group_values_numbers. assumption.
    + apply group_values_nonempty; assumption.
Qed.

Lemma year_charts_values_witness :
  exists counts means,
    year_block fuel_input = Ok (fuel_input, Some (LineCounts counts)) /\
    avg_price_block fuel_input = Ok (fuel_input, Some (LineValues means)) /\
    list_sum (map snd counts) = len fuel_input.
Proof.
  destruct (year_charts_values fuel_input numeric numeric _ _
              eq_refl eq_refl eq_refl eq_refl)
    as [counts [means [H1 [H2 [_ [H4 _]]]]]].
  exists counts, means. auto.
Defined.

(** ** Which charts are drawn *)

Lemma count_blocks_drawn (data : DataFrame) :
  (exists ch, model_block data = Ok (data, ch) /\
              drawn [ch] 0 = in_columns "model" data) /\
  (exists ch, fuel_block data = Ok (data, ch) /\
              drawn [ch] 0 = in_columns "fuel_type" data) /\
  (exists ch, transmission_block data = Ok (data, ch) /\
              drawn [ch] 0 = in_columns "transmission" data) /\
  (exists ch, color_block data = Ok (data, ch) /\
              drawn [ch] 0 = in_columns "color" data) /\
  (exists ch, city_block data = Ok (data, ch) /\
              drawn [ch] 0 = in_columns "city" data).
Proof.
  unfold model_block, fuel_block, transmission_block, color_block, city_block,
    top_counts, drawn.
  repeat split;
    match goal with
    | |- context [in_columns ?c data] =>
        rewrite !(in_columns_getitem c data); destruct (getitem data c);
        eexists; split; reflexivity
    end.
Qed.

Lemma in_columns_same (c : string) (before after : DataFrame) :
  c <> "price_in_lakhs" -> same_but_lakhs before after ->
  in_columns c after = in_columns c before.
Proof.
  intros Hc [_ Hg]. rewrite !in_columns_getitem, Hg by assumption. reflexivity.
Qed.

Lemma reporting_charts_drawn (data : DataFrame) :
  chartable data -> numbers_column "mileage" data ->
  exists shown charts,
    reporting data = Ok (shown, charts) /\
    List.length charts = 9 /\
    drawn charts 0 = in_columns "model" data /\
    drawn charts 1 = in_columns "fuel_type" data /\
    drawn charts 2 = in_columns "transmission" data /\
    drawn charts 3 = true /\ drawn charts 4 = true /\ drawn charts 5 = true /\
    drawn charts 6 = in_columns "color" data /\
    drawn charts 7 = true /\
    drawn charts 8 = in_columns "city" data.
Proof.
  intros [Hrect [Hprice Hyear]] [dtm [miles [Hm Hmn]]].
  destruct Hprice as [dtp [prices [Hp Hpn]]].
  destruct Hyear as [dty [years [Hy Hyn]]].
  destruct (price_blocks_values data dtp prices Hrect Hp Hpn) as [Hpb _].
  destruct (div_series_in_lakhs dtp prices Hpn) as [_ Hlnum].
  set (lakhs := map in_lakhs prices) in *.
  assert (Hlen : List.length lakhs = len data)
    by (unfold lakhs; rewrite length_map; apply (getitem_length "price" data dtp); assumption).
  set (data1 := setitem data "price_in_lakhs" (numeric, lakhs)) in *.
  assert (Hframe : same_but_lakhs data data1).
  { split; [apply setitem_len; assumption|].
    intros c Hc. apply setitem_getitem_other; assumption. }
  assert (Hrect1 : rectangular data1) by (apply setitem_rectangular; assumption).
  assert (Hsame : getitem data1 "price_in_lakhs" = Ok (numeric, lakhs))
    by (apply setitem_getitem_same; assumption).
  assert (Hp1 : getitem data1 "price" = Ok (dtp, prices))
    by (rewrite (proj2 Hframe); [assumption|discriminate]).
  assert (Hy1 : getitem data1 "year" = Ok (dty, years))
    by (rewrite (proj2 Hframe); [assumption|discriminate]).
  assert (Hm1 : getitem data1 "mileage" = Ok (dtm, miles))
    by (rewrite (proj2 Hframe); [assumption|discriminate]).
  destruct (price_blocks_values data1 dtp prices Hrect1 Hp1 Hpn) as [_ [Hmb _]].
  specialize (Hmb dtm miles Hm1). fold lakhs in Hmb.
  rewrite (setitem_same_column data1 "price_in_lakhs" (numeric, lakhs) Hsame) in Hmb.
  destruct (year_block_spec data1 dty years Hy1 Hyn) as [pts1 [Hyb _]].
  destruct (avg_price_block_spec data1 dty dtp years prices Hy1 Hyn Hp1 Hpn)
    as [pts2 [Hab _]].
  destruct (count_blocks_drawn data)
    as [[c1 [H1 D1]] [[c2 [H2 D2]] [[c3 [H3 D3]] _]]].
  destruct (count_blocks_drawn data1)
    as [_ [_ [_ [[c7 [H7 D7]] [c9 [H9 D9]]]]]].
  rewrite (in_columns_same "color" data data1) in D7 by (discriminate || assumption).
  rewrite (in_columns_same "city" data data1) in D9 by (discriminate || assumption).
  eexists. eexists. split.
  - unfold reporting, blocks. cbn [run_blocks].
    rewrite H1. cbn [bind fst snd]. rewrite H2. cbn [bind fst snd].
    rewrite H3. cbn [bind fst snd]. rewrite Hpb. cbn [bind fst snd].
    fold lakhs. fold data1. rewrite Hmb. cbn [bind fst snd].
    rewrite Hyb. cbn [bind fst snd]. rewrite H7. cbn [bind fst snd].
    rewrite Hab. cbn [bind fst snd]. rewrite H9. cbn [bind fst snd]. reflexivity.
  - split; [reflexivity|]. unfold drawn in *. cbn [nth] in *. auto 12.
Qed.

(** X13: on the clean table of a table read from a file the reporting
    stage runs to its end with nine chart slots; the charts of price,
    mileage against price, years and mean price per year are always drawn,
    and the chart of models, fuel types, transmissions, colours or cities
    is drawn exactly when the input has that column: an absent column
    leaves out its own chart and no other. *)
Theorem charts_drawn_for_present_columns :
  forall parse_number input clean rep,
    well_formed input ->
    clean_pipeline parse_number input = Ok (clean, rep) ->
    exists shown charts,
      reporting clean = Ok (shown, charts) /\
      List.length charts = 9 /\
      drawn charts 0 = in_columns "model" input /\
      drawn charts 1 = in_columns "fuel_type" input /\
      drawn charts 2 = in_columns "transmission" input /\
      drawn charts 3 = true /\ drawn charts 4 = true /\ drawn charts 5 = true /\
      drawn charts 6 = in_columns "color" input /\
      drawn charts 7 = true /\
      drawn charts 8 = in_columns "city" input.
Proof.
  intros parse_number input clean rep Hwf Hclean.
  pose proof (pipeline_output_is_clean parse_number input clean rep Hwf Hclean) as Hc.
  assert (Hm : numbers_column "mileage" clean)
    by (apply is_clean_numbers; [assumption|simpl; auto]).
  destruct (reporting_charts_drawn clean (clean_chartable clean Hc) Hm)
    as [shown [charts H]].
  assert (Hin : forall c, in_columns c clean = in_columns c input).
  { intros c. unfold in_columns.
    rewrite (clean_get_loc parse_number input clean rep Hclean). reflexivity. }
  rewrite !Hin in H. exists shown, charts. exact H.
Qed.

Lemma charts_drawn_for_present_columns_witness :
  exists clean rep shown charts,
    clean_pipeline parse_decimal twin_input = Ok (clean, rep) /\
    reporting clean = Ok (shown, charts) /\
    drawn charts 0 = true /\ drawn charts 6 = false.
Proof.
  assert (Hwf : well_formed twin_input) by solve_well_formed.
  destruct (clean_pipeline parse_decimal twin_input) as [[clean rep]|e] eqn:E;
    [|vm_compute in E; discriminate E].
  destruct (charts_drawn_for_present_columns parse_decimal twin_input clean rep Hwf E)
    as [shown [charts [Hrun [_ [H0 [_ [_ [_ [_ [_ [H6 _]]]]]]]]]]].
  exists clean, rep, shown, charts. auto.
Defined.

(** ** The missing-value step, once more *)

(** X14: on a table whose rows have one cell per column, the table the
    missing-value step leaves has no missing cell: running the step on it
    again would report 0 and remove nothing. *)
Theorem handle_missing_leaves_nothing_missing :
  forall data,
    rectangular data ->
    missing_cells (rows (fst (handle_missing data))) = 0 /\
    handle_missing (fst (handle_missing data)) = (fst (handle_missing data), 0%Z).
Proof.
  intros data Hrect. unfold handle_missing. cbn [fst snd].
  assert (Hrows : rows (dropna data) = filter (fun r => forallb notnull r) (rows data))
    by apply select_map_filter.
  assert (Hcomplete : Forall (fun r => ~ In NaN r) (rows (dropna data))).
  { apply Forall_forall. intros r Hr. rewrite Hrows in Hr.
    apply filter_In in Hr. apply forallb_notnull_In. apply Hr. }
  assert (Hzero : missing_cells (rows (dropna data)) = 0)
    by (apply missing_cells_complete; assumption).
  split; [assumption|]. f_equal.
  - unfold dropna at 1. rewrite select_map_filter, filter_all; [apply frame_eta|].
    apply forallb_forall. intros r Hr. apply forallb_notnull_In.
    rewrite Forall_forall in Hcomplete. apply Hcomplete. assumption.
  - unfold isnull_sum_sum, isnull_sum, column_values.
    rewrite (missing_by_column (List.length (columns (dropna data)))
               (rows (dropna data))); [rewrite Hzero; reflexivity|].
    unfold rectangular in Hrect. rewrite Forall_forall in *.
    intros r Hr. apply Hrect. rewrite Hrows in Hr. apply filter_In in Hr. apply Hr.
Qed.

Lemma handle_missing_leaves_nothing_missing_witness :
  missing_cells (rows missing_input) = 2 /\
  snd (handle_missing missing_input) = 2%Z /\
  len (fst (handle_missing missing_input)) = 1 /\
  missing_cells (rows (fst (handle_missing missing_input))) = 0 /\
  handle_missing (fst (handle_missing missing_input)) =
    (fst (handle_missing missing_input), 0%Z).
Proof.
  split; [reflexivity|]. split; [reflexivity|]. split; [reflexivity|].
  apply (handle_missing_leaves_nothing_missing missing_input).
  repeat constructor.
Defined.

(** ** Values that do not parse, from the input to the report *)





